(** * A verification model of [main.py], the personal book database.

    The program keeps a module-level list [database] of dictionaries with the
    keys ["Book"], ["Author"] and ["Genre"], and a menu loop that dispatches
    to [add_item], [view_all], [search_items], [edit_item], [delete_item],
    [search_by_genre] and [export_to_file].

    Modelling choices.
    - Python [str] values are modelled as [string]s of 8-bit characters read
      as code points 0-255 (ASCII and Latin-1).  On these code points
      [str.isspace] (hence [str.strip]), [str.lower], [str.upper], the
      whitespace [int()] skips and the JSON encoder are Python's exactly.
      [str.upper] can leave this range (["\xb5"] becomes U+039C, ["\xff"]
      U+0178) or lengthen a string (["\xdf"] becomes ["SS"]), so its result is
      a list of code points, compared with the code points of ["YES"].
    - The console and the file system are explicit state: [stdin] is the list
      of lines [input()] will return, [stdout] the list of printed strings.
      Prompts written by [input(prompt)] are not recorded.  [input()] at end of
      input raises [EOFError], which no handler catches: the monad's [None].
    - [datetime.now()] reads the [clock] field; [disk_error] says whether
      [open(filename, "w")] raises, and with which message. *)

From Stdlib Require Import String Ascii List Arith Lia ZArith Bool Sorted.
Import ListNotations.
Open Scope string_scope.
Set Warnings "-register-all".

(* ------------------------------------------------------------------ *)
(** ** Characters and Python string methods *)

Definition DQ : ascii := "034"%char.   (* double quote *)
Definition BSL : ascii := "092"%char.  (* backslash *)
Definition LF : ascii := "010"%char.   (* newline *)

Definition NL : string := String LF EmptyString.

(** [str.isspace] on code points 0-255: \t \n \v \f \r, the separators
    \x1c-\x1f, the space, NEL (\x85) and the no-break space (\xa0). *)
Definition py_isspace (c : ascii) : bool :=
  let n := nat_of_ascii c in
  (Nat.leb 9 n && Nat.leb n 13) || (Nat.leb 28 n && Nat.leb n 32)
  || Nat.eqb n 133 || Nat.eqb n 160.

Fixpoint drop_space (l : list ascii) : list ascii :=
  match l with
  | c :: r => if py_isspace c then drop_space r else l
  | [] => []
  end.

(** [str.strip()] *)
Definition strip (s : string) : string :=
  string_of_list_ascii
    (rev (drop_space (rev (drop_space (list_ascii_of_string s))))).

Fixpoint map_string (f : ascii -> ascii) (s : string) : string :=
  match s with
  | EmptyString => EmptyString
  | String c t => String (f c) (map_string f t)
  end.

(** [str.lower] of one character: A-Z and the Latin-1 capitals
    \xc0-\xde except the multiplication sign \xd7 move up by 32; every other
    code point below 256 is its own lower case. *)
Definition lower_char (c : ascii) : ascii :=
  let n := nat_of_ascii c in
  if (Nat.leb 65 n && Nat.leb n 90)
     || (Nat.leb 192 n && Nat.leb n 222 && negb (Nat.eqb n 215))
  then ascii_of_nat (n + 32) else c.

(** [str.upper] of one character, as code points: a-z and the Latin-1 small
    letters \xe0-\xfe except the division sign \xf7 move down by 32; the
    micro sign \xb5 becomes U+039C, the sharp s \xdf becomes ["SS"] and
    \xff becomes U+0178; every other code point is unchanged. *)
Definition upper_cp (c : ascii) : list nat :=
  let n := nat_of_ascii c in
  if (Nat.leb 97 n && Nat.leb n 122)
     || (Nat.leb 224 n && Nat.leb n 254 && negb (Nat.eqb n 247))
  then [n - 32]
  else if Nat.eqb n 181 then [924]
  else if Nat.eqb n 223 then [83; 83]
  else if Nat.eqb n 255 then [376]
  else [n].

(** The code points of a string. *)
Definition code_points (s : string) : list nat :=
  map nat_of_ascii (list_ascii_of_string s).

(** [str.lower()] and [str.upper()] *)
Definition lower (s : string) : string := map_string lower_char s.
Definition upper (s : string) : list nat :=
  flat_map upper_cp (list_ascii_of_string s).

(** [needle in hay] for strings: some suffix of [hay] starts with [needle]
    (the empty needle is in every string). *)
Fixpoint contains (needle hay : string) : bool :=
  String.prefix needle hay
  || match hay with
     | EmptyString => false
     | String _ t => contains needle t
     end.

Definition is_digit (c : ascii) : bool :=
  let n := nat_of_ascii c in Nat.leb 48 n && Nat.leb n 57.

Definition digit_val (c : ascii) : option Z :=
  if is_digit c then Some (Z.of_nat (nat_of_ascii c - 48)) else None.

(** The digits after the first one: a single underscore may separate two
    digits, as in [int("1_000")]. *)
Fixpoint py_digits (l : list ascii) (acc : Z) : option Z :=
  match l with
  | [] => Some acc
  | c :: r =>
      if (c =? "_")%char then
        match r with
        | d :: r' =>
            match digit_val d with
            | Some v => py_digits r' (acc * 10 + v)
            | None => None
            end
        | [] => None
        end
      else
        match digit_val c with
        | Some v => py_digits r (acc * 10 + v)
        | None => None
        end
  end.

Definition py_unsigned (l : list ascii) : option Z :=
  match l with
  | c :: r =>
      match digit_val c with
      | Some v => py_digits r v
      | None => None
      end
  | [] => None
  end.

(** The whitespace [int()] skips around its argument: \t \n \v \f \r, the
    space, NEL (\x85) and the no-break space (\xa0).  Unlike [str.strip] it
    keeps the separators \x1c-\x1f, which are ASCII but not
    whitespace for the C-level parser. *)
Definition int_isspace (c : ascii) : bool :=
  let n := nat_of_ascii c in
  (Nat.leb 9 n && Nat.leb n 13) || Nat.eqb n 32 || Nat.eqb n 133
  || Nat.eqb n 160.

Fixpoint int_drop_space (l : list ascii) : list ascii :=
  match l with
  | c :: r => if int_isspace c then int_drop_space r else l
  | [] => []
  end.

Definition int_trim (l : list ascii) : list ascii :=
  rev (int_drop_space (rev (int_drop_space l))).

(** [int(s)] for a [str] in base 10: surrounding whitespace, an optional sign,
    decimal digits with single underscores between them; [None] is the
    [ValueError]. *)
Definition py_int (s : string) : option Z :=
  match int_trim (list_ascii_of_string s) with
  | c :: r =>
      if (c =? "+")%char then py_unsigned r
      else if (c =? "-")%char then option_map Z.opp (py_unsigned r)
      else py_unsigned (c :: r)
  | [] => None
  end.

(** Decimal digits of a natural number, as [str(n)]. *)
Definition digit_char (d : nat) : ascii := ascii_of_nat (48 + d).

Fixpoint dec_aux (fuel n : nat) (acc : string) : string :=
  match fuel with
  | 0 => acc
  | S f =>
      let acc' := String (digit_char (n mod 10)) acc in
      if Nat.ltb n 10 then acc' else dec_aux f (n / 10) acc'
  end.

Definition py_str_nat (n : nat) : string := dec_aux (S n) n EmptyString.

(* ------------------------------------------------------------------ *)
(** ** Data model *)

(** One entry of [database]: the dictionary built by [add_item], whose keys
    are always ["Book"], ["Author"], ["Genre"], in this order ([edit_item]
    only assigns existing keys). *)
Record item := mk_item { Book : string; Author : string; Genre : string }.

Definition item_keys : list string := ["Book"; "Author"; "Genre"].

(** [book[key]] when [key in book], [None] when [key not in book]. *)
Definition get_field (key : string) (it : item) : option string :=
  if key =? "Book" then Some (Book it)
  else if key =? "Author" then Some (Author it)
  else if key =? "Genre" then Some (Genre it)
  else None.

(** [book[key] = v] for an existing key. *)
Definition set_field (key v : string) (it : item) : item :=
  if key =? "Book" then mk_item v (Author it) (Genre it)
  else if key =? "Author" then mk_item (Book it) v (Genre it)
  else if key =? "Genre" then mk_item (Book it) (Author it) v
  else it.

(** [datetime] as far as [strftime] reads it. *)
Record datetime := mk_datetime {
  year : nat; month : nat; day : nat; hour : nat; minute : nat; second : nat }.

Record state := mk_state {
  database : list item;
  stdin : list string;
  stdout : list string;
  files : list (string * string);
  clock : datetime;
  disk_error : option string }.

(** [list[i] = x]; [i] is always in range where the program uses it. *)
Fixpoint list_set {A} (l : list A) (i : nat) (x : A) : list A :=
  match l, i with
  | [], _ => []
  | _ :: r, 0 => x :: r
  | y :: r, S j => y :: list_set r j x
  end.

(** [del list[i]] *)
Fixpoint remove_at {A} (l : list A) (i : nat) : list A :=
  match l, i with
  | [], _ => []
  | _ :: r, 0 => r
  | y :: r, S j => y :: remove_at r j
  end.

(** [open(name, "w")] then writing [contents]: the file is created or
    truncated. *)
Fixpoint fs_write (fs : list (string * string)) (name contents : string)
  : list (string * string) :=
  match fs with
  | [] => [(name, contents)]
  | (n, c) :: r =>
      if n =? name then (name, contents) :: r
      else (n, c) :: fs_write r name contents
  end.

Fixpoint fs_read (fs : list (string * string)) (name : string) : option string :=
  match fs with
  | [] => None
  | (n, c) :: r => if n =? name then Some c else fs_read r name
  end.

(* ------------------------------------------------------------------ *)
(** ** The console monad *)

Definition M (A : Type) : Type := state -> option (A * state).

Definition ret {A} (x : A) : M A := fun s => Some (x, s).

Definition bind {A B} (m : M A) (k : A -> M B) : M B :=
  fun s => match m s with Some (x, s') => k x s' | None => None end.

Notation "x <- m ;; k" := (bind m (fun x => k))
  (at level 61, m at next level, right associativity).
Notation "m ;; k" := (bind m (fun _ => k))
  (at level 61, right associativity).

Definition input : M string :=
  fun s => match stdin s with
           | [] => None
           | l :: r => Some (l, mk_state (database s) r (stdout s) (files s)
                                        (clock s) (disk_error s))
           end.

Definition print (msg : string) : M unit :=
  fun s => Some (tt, mk_state (database s) (stdin s) (stdout s ++ [msg])%list
                             (files s) (clock s) (disk_error s)).

Definition get_db : M (list item) := fun s => Some (database s, s).

Definition put_db (db : list item) : M unit :=
  fun s => Some (tt, mk_state db (stdin s) (stdout s) (files s)
                             (clock s) (disk_error s)).

Definition now : M datetime := fun s => Some (clock s, s).

(** [open(name, "w")] and [json.dump] into it; [inr msg] is the exception. *)
Definition write_file (name contents : string) : M (unit + string) :=
  fun s => match disk_error s with
           | Some msg => Some (inr msg, s)
           | None => Some (inl tt, mk_state (database s) (stdin s) (stdout s)
                                           (fs_write (files s) name contents)
                                           (clock s) (disk_error s))
           end.

Fixpoint print_all (l : list string) : M unit :=
  match l with
  | [] => ret tt
  | m :: r => print m ;; print_all r
  end.

(* ------------------------------------------------------------------ *)
(** ** [json.dump] with an indent, and a JSON reader *)

Inductive json :=
| JStr (s : string)
| JArr (l : list json)
| JObj (m : list (string * json)).

Definition hex_digit (d : nat) : ascii :=
  if Nat.ltb d 10 then ascii_of_nat (48 + d) else ascii_of_nat (87 + d).

(** One character as [py_encode_basestring_ascii] writes it ([ensure_ascii]
    is on by default): the short escapes, printable ASCII as itself, and
    [\u%04x] for everything else. *)
Definition json_esc (c : ascii) : string :=
  let n := nat_of_ascii c in
  if (c =? BSL)%char then String BSL (String BSL EmptyString)
  else if (c =? DQ)%char then String BSL (String DQ EmptyString)
  else if Nat.eqb n 8 then String BSL "b"
  else if Nat.eqb n 12 then String BSL "f"
  else if Nat.eqb n 10 then String BSL "n"
  else if Nat.eqb n 13 then String BSL "r"
  else if Nat.eqb n 9 then String BSL "t"
  else if Nat.leb 32 n && Nat.leb n 126 then String c EmptyString
  else String BSL ("u00" ++ String (hex_digit (n / 16))
                              (String (hex_digit (n mod 16)) EmptyString)).

Fixpoint json_esc_body (s : string) : string :=
  match s with
  | EmptyString => EmptyString
  | String c t => json_esc c ++ json_esc_body t
  end.

Definition json_str (s : string) : string :=
  String DQ (json_esc_body s ++ String DQ EmptyString).

Fixpoint spaces (n : nat) : string :=
  match n with 0 => EmptyString | S k => String " " (spaces k) end.

(** [newline_indent] at a nesting level. *)
Definition nl_ind (ind lvl : nat) : string := NL ++ spaces (ind * lvl).

(** [_make_iterencode] with [indent] set, and the default separators
    [(',', ': ')]: [_iterencode_list] and [_iterencode_dict]. *)
Fixpoint json_encode (ind lvl : nat) (v : json) : string :=
  match v with
  | JStr s => json_str s
  | JArr [] => "[]"
  | JArr (x :: xs) =>
      "[" ++ nl_ind ind (S lvl) ++ json_encode ind (S lvl) x
      ++ (fix go (l : list json) : string :=
            match l with
            | [] => EmptyString
            | y :: ys => "," ++ nl_ind ind (S lvl) ++ json_encode ind (S lvl) y
                         ++ go ys
            end) xs
      ++ nl_ind ind lvl ++ "]"
  | JObj [] => "{}"
  | JObj ((k, x) :: kvs) =>
      "{" ++ nl_ind ind (S lvl) ++ json_str k ++ ": " ++ json_encode ind (S lvl) x
      ++ (fix go (l : list (string * json)) : string :=
            match l with
            | [] => EmptyString
            | (k', y) :: ys => "," ++ nl_ind ind (S lvl) ++ json_str k' ++ ": "
                               ++ json_encode ind (S lvl) y ++ go ys
            end) kvs
      ++ nl_ind ind lvl ++ "}"
  end.

(** [json.dump(obj, f, indent=ind)]: the text written to [f]. *)
Definition json_dump (ind : nat) (v : json) : string := json_encode ind 0 v.

(** The reader, as [json.loads] scans arrays, objects and strings. *)
Definition json_ws (c : ascii) : bool :=
  let n := nat_of_ascii c in
  Nat.eqb n 32 || Nat.eqb n 9 || Nat.eqb n 10 || Nat.eqb n 13.

Fixpoint skip_ws (l : string) : string :=
  match l with
  | String c r => if json_ws c then skip_ws r else l
  | EmptyString => EmptyString
  end.

Definition hex_val (c : ascii) : option nat :=
  let n := nat_of_ascii c in
  if Nat.leb 48 n && Nat.leb n 57 then Some (n - 48)
  else if Nat.leb 97 n && Nat.leb n 102 then Some (n - 87)
  else if Nat.leb 65 n && Nat.leb n 70 then Some (n - 55)
  else None.

Definition hex4 (a b c d : ascii) : option nat :=
  match hex_val a, hex_val b, hex_val c, hex_val d with
  | Some x, Some y, Some z, Some w => Some (((x * 16 + y) * 16 + z) * 16 + w)
  | _, _, _, _ => None
  end.

Definition short_unescape (e : ascii) : option ascii :=
  if (e =? DQ)%char then Some DQ
  else if (e =? BSL)%char then Some BSL
  else if (e =? "/")%char then Some "/"%char
  else if (e =? "b")%char then Some (ascii_of_nat 8)
  else if (e =? "f")%char then Some (ascii_of_nat 12)
  else if (e =? "n")%char then Some (ascii_of_nat 10)
  else if (e =? "r")%char then Some (ascii_of_nat 13)
  else if (e =? "t")%char then Some (ascii_of_nat 9)
  else None.

Definition cons_res (c : ascii) (o : option (string * string))
  : option (string * string) :=
  match o with Some (s, r) => Some (String c s, r) | None => None end.

(** The body of a string literal, after its opening quote.  A [\uXXXX]
    escape above code point 255 is outside the 8-bit character model. *)
Fixpoint parse_str_body (l : string) : option (string * string) :=
  match l with
  | EmptyString => None
  | String c r =>
      if (c =? DQ)%char then Some (EmptyString, r)
      else if (c =? BSL)%char then
        match r with
        | String e r' =>
            match short_unescape e with
            | Some c' => cons_res c' (parse_str_body r')
            | None =>
                if (e =? "u")%char then
                  match r' with
                  | String h1 (String h2 (String h3 (String h4 r''))) =>
                      match hex4 h1 h2 h3 h4 with
                      | Some n =>
                          if Nat.ltb n 256
                          then cons_res (ascii_of_nat n) (parse_str_body r'')
                          else None
                      | None => None
                      end
                  | _ => None
                  end
                else None
            end
        | EmptyString => None
        end
      else if Nat.ltb (nat_of_ascii c) 32 then None
      else cons_res c (parse_str_body r)
  end.

Fixpoint parse_value (fuel : nat) (l : string) : option (json * string) :=
  match fuel with
  | 0 => None
  | S f =>
      match skip_ws l with
      | String c r =>
          if (c =? DQ)%char then
            match parse_str_body r with
            | Some (s, r') => Some (JStr s, r')
            | None => None
            end
          else if (c =? "[")%char then
            match skip_ws r with
            | String c' r' => if (c' =? "]")%char then Some (JArr [], r')
                          else parse_elems f r []
            | EmptyString => None
            end
          else if (c =? "{")%char then
            match skip_ws r with
            | String c' r' => if (c' =? "}")%char then Some (JObj [], r')
                          else parse_members f r []
            | EmptyString => None
            end
          else None
      | EmptyString => None
      end
  end
with parse_elems (fuel : nat) (l : string) (acc : list json)
  : option (json * string) :=
  match fuel with
  | 0 => None
  | S f =>
      match parse_value f l with
      | Some (v, r) =>
          match skip_ws r with
          | String c r' =>
              if (c =? ",")%char then parse_elems f r' (v :: acc)
              else if (c =? "]")%char then Some (JArr (rev (v :: acc)), r')
              else None
          | EmptyString => None
          end
      | None => None
      end
  end
with parse_members (fuel : nat) (l : string) (acc : list (string * json))
  : option (json * string) :=
  match fuel with
  | 0 => None
  | S f =>
      match skip_ws l with
      | String c r =>
          if (c =? DQ)%char then
            match parse_str_body r with
            | Some (k, r1) =>
                match skip_ws r1 with
                | String c1 r2 =>
                    if (c1 =? ":")%char then
                      match parse_value f r2 with
                      | Some (v, r3) =>
                          match skip_ws r3 with
                          | String c3 r4 =>
                              if (c3 =? ",")%char
                              then parse_members f r4 ((k, v) :: acc)
                              else if (c3 =? "}")%char
                              then Some (JObj (rev ((k, v) :: acc)), r4)
                              else None
                          | EmptyString => None
                          end
                      | None => None
                      end
                    else None
                | EmptyString => None
                end
            | None => None
            end
          else None
      | EmptyString => None
      end
  end.

(** [json.loads(text)]: one value, then only whitespace. *)
Definition json_loads (text : string) : option json :=
  match parse_value (S (String.length text)) text with
  | Some (v, r) => match skip_ws r with EmptyString => Some v | _ => None end
  | None => None
  end.

(* ------------------------------------------------------------------ *)
(** ** The handlers of [main.py] *)

Definition add_item : M unit :=
  b <- input ;;
  a <- input ;;
  g <- input ;;
  let it := mk_item (strip b) (strip a) (strip g) in
  if Book it =? EmptyString then print "Book title cannot be empty."
  else
    db <- get_db ;;
    put_db (db ++ [it])%list ;;
    print "Book added successfully!".

Fixpoint view_loop (i : nat) (items : list item) : M unit :=
  match items with
  | [] => ret tt
  | it :: r =>
      print (NL ++ "--- Book " ++ py_str_nat i ++ " ---") ;;
      print ("Book: " ++ Book it) ;;
      print ("Author: " ++ Author it) ;;
      print ("Genre: " ++ Genre it) ;;
      view_loop (S i) r
  end.

Definition view_all : M unit :=
  db <- get_db ;;
  match db with
  | [] => print "No books yet!"
  | _ => view_loop 1 db
  end.

(** [f"{item.get('Book')} {item.get('Author')} {item.get('Genre')}"] *)
Definition combined (it : item) : string :=
  Book it ++ " " ++ Author it ++ " " ++ Genre it.

Definition match_line (it : item) : string :=
  "- " ++ Book it ++ " by " ++ Author it ++ " (" ++ Genre it ++ ")".

(** The [for item in database] loop of [search_items]; [found] is the flag. *)
Fixpoint search_loop (search_term : string) (items : list item) (found : bool)
  : M bool :=
  match items with
  | [] => ret found
  | it :: r =>
      if contains search_term (lower (combined it)) then
        print (match_line it) ;; search_loop search_term r true
      else search_loop search_term r found
  end.

Definition search_items : M unit :=
  db <- get_db ;;
  match db with
  | [] => print "No books in the database yet!"
  | _ =>
      q <- input ;;
      let search_term := lower (strip q) in
      found <- search_loop search_term db false ;;
      if found then ret tt else print "No items found."
  end.

(** [_find_matches_by_title]: the pairs [(i, item)] of [enumerate(database)]
    whose lower-cased title contains [search_title]. *)
Fixpoint find_matches_from (search_title : string) (i : nat) (db : list item)
  : list (nat * item) :=
  match db with
  | [] => []
  | it :: r =>
      if contains search_title (lower (Book it))
      then (i, it) :: find_matches_from search_title (S i) r
      else find_matches_from search_title (S i) r
  end.

Definition find_matches_by_title (search_title : string) (db : list item)
  : list (nat * item) := find_matches_from search_title 0 db.

Fixpoint print_matches (idx : nat) (ms : list (nat * item)) : M unit :=
  match ms with
  | [] => ret tt
  | (_, it) :: r =>
      print (py_str_nat idx ++ ". " ++ Book it ++ " by " ++ Author it
             ++ " (" ++ Genre it ++ ")") ;;
      print_matches (S idx) r
  end.

(** The [try: choice = int(input(...).strip()) ...] block, written out the
    same way in [edit_item] and [delete_item]: [None] is the early [return]. *)
Definition select_match (ms : list (nat * item)) : M (option (nat * item)) :=
  c <- input ;;
  match py_int (strip c) with
  | None => print "Please enter a valid number." ;; ret None
  | Some choice =>
      if (1 <=? choice)%Z && (choice <=? Z.of_nat (List.length ms))%Z
      then ret (nth_error ms (Z.to_nat (choice - 1)))
      else print "Invalid selection." ;; ret None
  end.

(** [book] is the dictionary stored at [database[index_to_edit]]:
    [book[field_input] = new_value] updates that entry in place, and
    [database[index_to_edit] = book] stores the same object again. *)
Definition edit_item : M unit :=
  db <- get_db ;;
  match db with
  | [] => print "No books to edit yet!"
  | _ =>
      t <- input ;;
      let search_title := lower (strip t) in
      let matches := find_matches_by_title search_title db in
      match matches with
      | [] => print "No books found with that title."
      | _ =>
          print (NL ++ "Matching books:") ;;
          print_matches 1 matches ;;
          sel <- select_match matches ;;
          match sel with
          | None => ret tt
          | Some (index_to_edit, book) =>
              print (NL ++ "Which field do you want to edit?") ;;
              print_all (map (fun k => "- " ++ k) item_keys) ;;
              f <- input ;;
              let field_input := strip f in
              match get_field field_input book with
              | None => print "Invalid field name."
              | Some _ =>
                  v <- input ;;
                  let new_value := strip v in
                  if negb (new_value =? EmptyString) then
                    db' <- get_db ;;
                    put_db (list_set db' index_to_edit
                              (set_field field_input new_value book)) ;;
                    print "Book updated successfully!"
                  else print "No change made."
              end
          end
      end
  end.

Definition delete_item : M unit :=
  db <- get_db ;;
  match db with
  | [] => print "No books to delete yet!"
  | _ =>
      t <- input ;;
      let search_title := lower (strip t) in
      let matches := find_matches_by_title search_title db in
      match matches with
      | [] => print "No books found with that title."
      | _ =>
          print (NL ++ "Matching books:") ;;
          print_matches 1 matches ;;
          sel <- select_match matches ;;
          match sel with
          | None => ret tt
          | Some (index_to_delete, _) =>
              confirm <- input ;;
              if list_eq_dec Nat.eq_dec (upper (strip confirm)) (code_points "YES")
              then
                db' <- get_db ;;
                put_db (remove_at db' index_to_delete) ;;
                print "Book deleted successfully!"
              else print "Delete cancelled."
          end
      end
  end.

Fixpoint genre_loop (genre_search : string) (items : list item) (found : bool)
  : M bool :=
  match items with
  | [] => ret found
  | it :: r =>
      if contains genre_search (lower (Genre it)) then
        print ("- " ++ Book it ++ " by " ++ Author it) ;;
        genre_loop genre_search r true
      else genre_loop genre_search r found
  end.

Definition search_by_genre : M unit :=
  db <- get_db ;;
  match db with
  | [] => print "No books in the database yet!"
  | _ =>
      q <- input ;;
      let genre_search := lower (strip q) in
      print (NL ++ "Books in Genre '" ++ genre_search ++ "':") ;;
      found <- genre_loop genre_search db false ;;
      if found then ret tt else print "No books found in that Genre."
  end.

(** [%0wd] for a field below [10^w], as [strftime] writes the fields of a
    [datetime] ([%Y] as four digits). *)
Fixpoint zfill (w n : nat) : string :=
  match w with
  | 0 => EmptyString
  | S w' => zfill w' (n / 10) ++ String (digit_char (n mod 10)) EmptyString
  end.

(** [strftime('%Y%m%d_%H%M%S')] *)
Definition strftime_stamp (dt : datetime) : string :=
  zfill 4 (year dt) ++ zfill 2 (month dt) ++ zfill 2 (day dt) ++ "_"
  ++ zfill 2 (hour dt) ++ zfill 2 (minute dt) ++ zfill 2 (second dt).

Definition item_to_json (it : item) : json :=
  JObj [("Book", JStr (Book it)); ("Author", JStr (Author it));
        ("Genre", JStr (Genre it))].

Definition export_to_file : M unit :=
  db <- get_db ;;
  match db with
  | [] => print "No books to export yet!"
  | _ =>
      dt <- now ;;
      let filename := "books_export_" ++ strftime_stamp dt ++ ".json" in
      r <- write_file filename (json_dump 2 (JArr (map item_to_json db))) ;;
      match r with
      | inl _ => print ("Export complete: " ++ filename)
      | inr e => print ("Export failed: " ++ e)
      end
  end.

Definition menu_lines : list string :=
  [NL ++ "=== My Personal Database ==="; "1. Add new Book"; "2. View all Books";
   "3. Search Book"; "4. Edit Book"; "5. Delete Book"; "6. Search by Genre";
   "7. Export to file"; "8. Exit"].

(** One iteration of the [while True] loop of [main]; [false] is the
    [break] of option 8. *)
Definition menu_step : M bool :=
  print_all menu_lines ;;
  c <- input ;;
  let choice := strip c in
  if choice =? "1" then add_item ;; ret true
  else if choice =? "2" then view_all ;; ret true
  else if choice =? "3" then search_items ;; ret true
  else if choice =? "4" then edit_item ;; ret true
  else if choice =? "5" then delete_item ;; ret true
  else if choice =? "6" then search_by_genre ;; ret true
  else if choice =? "7" then export_to_file ;; ret true
  else if choice =? "8" then print "Goodbye!" ;; ret false
  else print "Invalid option." ;; ret true.

(** [main] observed for at most [fuel] iterations. *)
Fixpoint main_loop (fuel : nat) : M unit :=
  match fuel with
  | 0 => ret tt
  | S f => continue <- menu_step ;; if continue then main_loop f else ret tt
  end.

Definition init_state (inputs : list string) (dt : datetime)
  (err : option string) : state :=
  mk_state [] inputs [] [] dt err.

(* ================================================================== *)
(** * Lemmas *)

Lemma string_app_nil_r (s : string) : s ++ EmptyString = s.
Proof. induction s; simpl; congruence. Qed.

Lemma string_app_assoc (a b c : string) : (a ++ b) ++ c = a ++ (b ++ c).
Proof. induction a; simpl; congruence. Qed.

Lemma list_ascii_of_string_app (a b : string) :
  list_ascii_of_string (a ++ b)
  = (list_ascii_of_string a ++ list_ascii_of_string b)%list.
Proof. induction a; simpl; congruence. Qed.

(** Effects of the loops that only print. *)
Section Loops.
Variables (db : list item) (ins : list string)
          (fs : list (string * string)) (dt : datetime) (err : option string).

Lemma print_all_run (l : list string) :
  forall o, print_all l (mk_state db ins o fs dt err)
            = Some (tt, mk_state db ins (o ++ l)%list fs dt err).
Proof.
  induction l as [|m r IH]; intros o; simpl.
  - rewrite app_nil_r; reflexivity.
  - unfold bind, print; simpl. rewrite IH, <- app_assoc. reflexivity.
Qed.

Fixpoint numbered_lines (idx : nat) (ms : list (nat * item)) : list string :=
  match ms with
  | [] => []
  | (_, it) :: r =>
      (py_str_nat idx ++ ". " ++ Book it ++ " by " ++ Author it
       ++ " (" ++ Genre it ++ ")") :: numbered_lines (S idx) r
  end.

Lemma print_matches_run (ms : list (nat * item)) :
  forall idx o, print_matches idx ms (mk_state db ins o fs dt err)
    = Some (tt, mk_state db ins (o ++ numbered_lines idx ms)%list fs dt err).
Proof.
  induction ms as [|[i it] r IH]; intros idx o; simpl.
  - rewrite app_nil_r; reflexivity.
  - unfold bind, print; simpl. rewrite IH, <- app_assoc. reflexivity.
Qed.

Definition search_pred (term : string) (it : item) : bool :=
  contains term (lower (combined it)).

Lemma search_loop_run (term : string) (items : list item) :
  forall found o, search_loop term items found (mk_state db ins o fs dt err)
    = Some (found || existsb (search_pred term) items,
            mk_state db ins (o ++ map match_line (filter (search_pred term) items))%list
                     fs dt err).
Proof.
  induction items as [|it r IH]; intros found o; simpl.
  - rewrite orb_false_r, app_nil_r; reflexivity.
  - change (contains term (lower (combined it))) with (search_pred term it).
    destruct (search_pred term it).
    + unfold bind, print; simpl. rewrite IH, <- app_assoc, orb_true_r. reflexivity.
    + rewrite IH. reflexivity.
Qed.

Lemma genre_loop_run (term : string) (items : list item) :
  forall found o, exists found' o',
    genre_loop term items found (mk_state db ins o fs dt err)
    = Some (found', mk_state db ins (o ++ o')%list fs dt err).
Proof.
  induction items as [|it r IH]; intros found o; simpl.
  - exists found, []. rewrite app_nil_r; reflexivity.
  - destruct (contains term (lower (Genre it))).
    + unfold bind, print; simpl. edestruct IH as (f' & o' & ->).
      eexists _, _. rewrite <- app_assoc. reflexivity.
    + apply IH.
Qed.

Lemma view_loop_run (items : list item) :
  forall i o, exists o',
    view_loop i items (mk_state db ins o fs dt err)
    = Some (tt, mk_state db ins (o ++ o')%list fs dt err).
Proof.
  induction items as [|it r IH]; intros i o; simpl.
  - exists []. rewrite app_nil_r; reflexivity.
  - unfold bind, print; simpl.
    edestruct IH as (o' & ->).
    eexists. rewrite <- !app_assoc. reflexivity.
Qed.

End Loops.

Ltac list_eq :=
  repeat (rewrite <- app_assoc || rewrite <- app_comm_cons || rewrite app_nil_l);
  reflexivity.

Ltac run_in H :=
  unfold bind, ret, input, print, get_db, put_db, now, write_file in H;
  cbn [database stdin stdout files clock disk_error negb andb orb] in H.
Ltac run :=
  unfold bind, ret, input, print, get_db, put_db, now, write_file;
  cbn [database stdin stdout files clock disk_error negb andb orb].

Lemma prefix_app (n y : string) : String.prefix n (n ++ y) = true.
Proof.
  induction n as [|a n IH]; simpl.
  - destruct y; reflexivity.
  - destruct (ascii_dec a a) as [_|E]; [exact IH | congruence].
Qed.

Lemma contains_app_r (n x y : string) : contains n (x ++ n ++ y) = true.
Proof.
  induction x as [|a x IH]; simpl.
  - destruct n as [|c n]; simpl.
    + destruct y; reflexivity.
    + destruct (ascii_dec c c) as [_|E]; [|congruence].
      rewrite prefix_app; reflexivity.
  - rewrite IH, orb_true_r; reflexivity.
Qed.

Lemma map_string_app (f : ascii -> ascii) (a b : string) :
  map_string f (a ++ b) = map_string f a ++ map_string f b.
Proof. induction a; simpl; congruence. Qed.

Lemma existsb_filter_nil {A} (p : A -> bool) (l : list A) :
  existsb p l = match filter p l with [] => false | _ => true end.
Proof. induction l as [|x l IH]; simpl; [reflexivity|]. destruct (p x); auto. Qed.

(** ** C4: adding *)

(** C4: [add_item] reads a title, an author and a genre.  When the stripped
    title is empty it prints the rejection and leaves [database] as it was;
    otherwise it appends the stripped record after all existing records. *)
Theorem add_item_rejects_or_appends db b a g rest o fs dt err :
  add_item (mk_state db (b :: a :: g :: rest) o fs dt err)
  = if strip b =? EmptyString
    then Some (tt, mk_state db rest (o ++ ["Book title cannot be empty."])%list
                            fs dt err)
    else Some (tt, mk_state (db ++ [mk_item (strip b) (strip a) (strip g)])%list
                            rest (o ++ ["Book added successfully!"])%list fs dt err).
Proof.
  unfold add_item. run. cbn [Book].
  destruct (strip b =? EmptyString); run; reflexivity.
Qed.

(** ** C10: exporting an empty catalog *)

(** C10: with an empty [database], [export_to_file] prints its message and
    returns normally, without reading the clock or touching [files]. *)
Theorem export_empty_catalog ins o fs dt err :
  export_to_file (mk_state [] ins o fs dt err)
  = Some (tt, mk_state [] ins (o ++ ["No books to export yet!"])%list fs dt err).
Proof. reflexivity. Qed.

(** ** C1: the combined search *)

(** C1 (amended): when [database] is not empty, [search_items] reads one line
    and prints, in the order of [database], exactly the records whose title,
    author and genre joined by single spaces contain the stripped query, both
    lower-cased (and "No items found." when none does); with an empty
    [database] it prints a message and reads nothing.  A genre "Fantasy" is
    found by the query "fan". *)
Theorem search_items_combined db q rest o fs dt err :
  search_items (mk_state db (q :: rest) o fs dt err)
  = match db with
    | [] => Some (tt, mk_state [] (q :: rest)
                               (o ++ ["No books in the database yet!"])%list fs dt err)
    | _ =>
        let hits := filter (search_pred (lower (strip q))) db in
        Some (tt, mk_state db rest
                    (o ++ map match_line hits
                       ++ match hits with [] => ["No items found."] | _ => [] end)%list
                    fs dt err)
    end
  /\ (forall it, Genre it = "Fantasy" -> search_pred (lower (strip "fan")) it = true).
Proof.
  split.
  - unfold search_items. destruct db as [|it0 db0]; [reflexivity|].
    run. rewrite search_loop_run. simpl orb.
    rewrite existsb_filter_nil.
    destruct (filter (search_pred (lower (strip q))) (it0 :: db0)) eqn:E; run.
    + rewrite app_nil_r. reflexivity.
    + rewrite app_nil_r. reflexivity.
  - intros it Hg. unfold search_pred, combined. rewrite Hg.
    change (lower (strip "fan")) with "fan".
    unfold lower. rewrite !map_string_app.
    change (map_string lower_char "Fantasy") with ("fan" ++ "tasy").
    rewrite <- !string_app_assoc, (string_app_assoc _ "fan" "tasy").
    apply contains_app_r.
Qed.

Definition example_clock : datetime := mk_datetime 2026 3 7 9 5 42.
Definition dune : item := mk_item "Dune" "Herbert" "SciFi".

(** C1, counterexample: the query "dune herbert" finds [dune], whose title,
    author and genre written one after the other ("DuneHerbertSciFi") do not
    contain it: the fields are matched joined by spaces. *)
Lemma search_items_joins_with_spaces :
  search_items (mk_state [dune] ["dune herbert"] [] [] example_clock None)
  = Some (tt, mk_state [dune] [] [match_line dune] [] example_clock None)
  /\ contains (lower (strip "dune herbert"))
              (lower (Book dune ++ Author dune ++ Genre dune)) = false.
Proof. split; vm_compute; reflexivity. Qed.

(** ** Selection, editing and deleting *)

Lemma select_match_run ms ins db o fs dt err :
  select_match ms (mk_state db ins o fs dt err)
  = match ins with
    | [] => None
    | c :: rest =>
        match py_int (strip c) with
        | None => Some (None, mk_state db rest
                                (o ++ ["Please enter a valid number."])%list fs dt err)
        | Some choice =>
            if (1 <=? choice)%Z && (choice <=? Z.of_nat (List.length ms))%Z
            then Some (nth_error ms (Z.to_nat (choice - 1)),
                       mk_state db rest o fs dt err)
            else Some (None, mk_state db rest
                               (o ++ ["Invalid selection."])%list fs dt err)
        end
    end.
Proof.
  unfold select_match. run. destruct ins as [|c rest]; [reflexivity|].
  destruct (py_int (strip c)) as [ch|]; [|reflexivity].
  destruct ((1 <=? ch)%Z && (ch <=? Z.of_nat (List.length ms))%Z); reflexivity.
Qed.

Lemma match_nonnil {A B} (l : list A) (x y : B) :
  l <> [] -> match l with [] => x | _ :: _ => y end = y.
Proof. destruct l; [congruence | reflexivity]. Qed.



Definition matches_lines (ms : list (nat * item)) : list string :=
  (NL ++ "Matching books:") :: numbered_lines 1 ms.


Lemma find_matches_from_In t k db i it :
  In (i, it) (find_matches_from t k db) -> k <= i /\ nth_error db (i - k) = Some it.
Proof.
  revert k. induction db as [|x db IH]; intros k H; simpl in H; [contradiction|].
  destruct (contains t (lower (Book x))).
  - destruct H as [H|H].
    + inversion H; subst. rewrite Nat.sub_diag. split; [lia|reflexivity].
    + destruct (IH (S k) H) as [Hle Hn]. split; [lia|].
      replace (i - k) with (S (i - S k)) by lia. exact Hn.
  - destruct (IH (S k) H) as [Hle Hn]. split; [lia|].
    replace (i - k) with (S (i - S k)) by lia. exact Hn.
Qed.

Lemma selected_in_db t db ch i book :
  nth_error (find_matches_by_title t db) ch = Some (i, book) ->
  nth_error db i = Some book.
Proof.
  intros H. apply nth_error_In in H.
  destruct (find_matches_from_In t 0 db i book H) as [_ Hn].
  rewrite Nat.sub_0_r in Hn. exact Hn.
Qed.









Lemma edit_item_abort db t c rest o fs dt err msg :
  let ms := find_matches_by_title (lower (strip t)) db in
  ms <> [] ->
  (forall o', select_match ms (mk_state db (c :: rest) o' fs dt err)
              = Some (None, mk_state db rest (o' ++ [msg])%list fs dt err)) ->
  edit_item (mk_state db (t :: c :: rest) o fs dt err)
  = Some (tt, mk_state db rest (o ++ matches_lines ms ++ [msg])%list fs dt err).
Proof.
  intros ms Hms Hsel.
  destruct db as [|it0 db0]; [exfalso; apply Hms; reflexivity|].
  unfold edit_item. run. fold ms.
  rewrite (match_nonnil ms _ _ Hms). run.
  rewrite print_matches_run. run. rewrite Hsel. run.
  unfold matches_lines. list_eq.
Qed.

Lemma delete_item_abort db t c rest o fs dt err msg :
  let ms := find_matches_by_title (lower (strip t)) db in
  ms <> [] ->
  (forall o', select_match ms (mk_state db (c :: rest) o' fs dt err)
              = Some (None, mk_state db rest (o' ++ [msg])%list fs dt err)) ->
  delete_item (mk_state db (t :: c :: rest) o fs dt err)
  = Some (tt, mk_state db rest (o ++ matches_lines ms ++ [msg])%list fs dt err).
Proof.
  intros ms Hms Hsel.
  destruct db as [|it0 db0]; [exfalso; apply Hms; reflexivity|].
  unfold delete_item. run. fold ms.
  rewrite (match_nonnil ms _ _ Hms). run.
  rewrite print_matches_run. run. rewrite Hsel. run.
  unfold matches_lines. list_eq.
Qed.

Lemma menu_step_edit db ins o fs dt err :
  menu_step (mk_state db ("4" :: ins) o fs dt err)
  = match edit_item (mk_state db ins (o ++ menu_lines)%list fs dt err) with
    | Some (_, s') => Some (true, s')
    | None => None
    end.
Proof. unfold menu_step. run. rewrite print_all_run. run. reflexivity. Qed.

Lemma menu_step_delete db ins o fs dt err :
  menu_step (mk_state db ("5" :: ins) o fs dt err)
  = match delete_item (mk_state db ins (o ++ menu_lines)%list fs dt err) with
    | Some (_, s') => Some (true, s')
    | None => None
    end.
Proof. unfold menu_step. run. rewrite print_all_run. run. reflexivity. Qed.

Lemma main_loop_S fuel s :
  main_loop (S fuel) s
  = match menu_step s with
    | Some (b, s') => if b then main_loop fuel s' else Some (tt, s')
    | None => None
    end.
Proof. simpl. unfold bind. destruct (menu_step s) as [[[|] s']|]; reflexivity. Qed.

(** ** C3: deleting *)


Definition dune2 : item := mk_item "Dune2" "Herbert" "SciFi".


(** ** C5, C6, C9: editing *)







(** ** C8: selection errors *)

Lemma select_match_bad ms c rest db fs dt err :
  (py_int (strip c) = None
   \/ exists ch, py_int (strip c) = Some ch
                 /\ (ch < 1 \/ ch > Z.of_nat (List.length ms))%Z) ->
  exists msg, In msg ["Please enter a valid number."; "Invalid selection."]
    /\ forall o', select_match ms (mk_state db (c :: rest) o' fs dt err)
                  = Some (None, mk_state db rest (o' ++ [msg])%list fs dt err).
Proof.
  intros [Hc | (ch & Hc & Hr)].
  - exists "Please enter a valid number.". split; [simpl; auto|].
    intros o'. rewrite select_match_run, Hc. reflexivity.
  - exists "Invalid selection.". split; [simpl; auto|].
    intros o'. rewrite select_match_run, Hc.
    assert (Hb : ((1 <=? ch)%Z && (ch <=? Z.of_nat (List.length ms))%Z) = false).
    { apply andb_false_iff. destruct Hr as [Hr|Hr]; [left|right]; apply Z.leb_gt; lia. }
    rewrite Hb. reflexivity.
Qed.

(** C8: when the title matches some record but the selection is not a number
    or not in [1 .. number of matches], [edit_item] and [delete_item] print an
    error and return with [database] unchanged after reading exactly those two
    lines; in [main] (options 4 and 5) the next line is read by the menu. *)
Theorem selection_error_aborts db t c rest o fs dt err :
  let ms := find_matches_by_title (lower (strip t)) db in
  ms <> [] ->
  (py_int (strip c) = None
   \/ exists ch, py_int (strip c) = Some ch
                 /\ (ch < 1 \/ ch > Z.of_nat (List.length ms))%Z) ->
  exists msg,
    In msg ["Please enter a valid number."; "Invalid selection."]
    /\ edit_item (mk_state db (t :: c :: rest) o fs dt err)
       = Some (tt, mk_state db rest (o ++ matches_lines ms ++ [msg])%list fs dt err)
    /\ delete_item (mk_state db (t :: c :: rest) o fs dt err)
       = Some (tt, mk_state db rest (o ++ matches_lines ms ++ [msg])%list fs dt err)
    /\ (forall fuel,
          main_loop (S fuel) (mk_state db ("4" :: t :: c :: rest) o fs dt err)
          = main_loop fuel (mk_state db rest
                              (o ++ menu_lines ++ matches_lines ms ++ [msg])%list
                              fs dt err))
    /\ (forall fuel,
          main_loop (S fuel) (mk_state db ("5" :: t :: c :: rest) o fs dt err)
          = main_loop fuel (mk_state db rest
                              (o ++ menu_lines ++ matches_lines ms ++ [msg])%list
                              fs dt err)).
Proof.
  intros ms Hms Hbad.
  destruct (select_match_bad ms c rest db fs dt err Hbad) as (msg & Hin & Hsel).
  exists msg. split; [exact Hin|].
  split; [exact (edit_item_abort db t c rest o fs dt err msg Hms Hsel)|].
  split; [exact (delete_item_abort db t c rest o fs dt err msg Hms Hsel)|].
  split; intros fuel; rewrite main_loop_S.
  - rewrite menu_step_edit, (edit_item_abort db t c rest _ fs dt err msg Hms Hsel).
    rewrite <- app_assoc. reflexivity.
  - rewrite menu_step_delete, (delete_item_abort db t c rest _ fs dt err msg Hms Hsel).
    rewrite <- app_assoc. reflexivity.
Qed.

Lemma selection_error_aborts_witness :
  exists msg,
    In msg ["Please enter a valid number."; "Invalid selection."]
    /\ edit_item (mk_state [dune; dune2] ["dune"; "3"] [] [] example_clock None)
       = Some (tt, mk_state [dune; dune2] []
                     ([] ++ matches_lines (find_matches_by_title "dune" [dune; dune2])
                      ++ [msg])%list [] example_clock None)
    /\ delete_item (mk_state [dune; dune2] ["dune"; "3"] [] [] example_clock None)
       = Some (tt, mk_state [dune; dune2] []
                     ([] ++ matches_lines (find_matches_by_title "dune" [dune; dune2])
                      ++ [msg])%list [] example_clock None)
    /\ (forall fuel,
          main_loop (S fuel) (mk_state [dune; dune2] ["4"; "dune"; "3"] [] [] example_clock None)
          = main_loop fuel (mk_state [dune; dune2] []
                              ([] ++ menu_lines
                               ++ matches_lines (find_matches_by_title "dune" [dune; dune2])
                               ++ [msg])%list [] example_clock None))
    /\ (forall fuel,
          main_loop (S fuel) (mk_state [dune; dune2] ["5"; "dune"; "3"] [] [] example_clock None)
          = main_loop fuel (mk_state [dune; dune2] []
                              ([] ++ menu_lines
                               ++ matches_lines (find_matches_by_title "dune" [dune; dune2])
                               ++ [msg])%list [] example_clock None)).
Proof.
  apply (selection_error_aborts [dune; dune2] "dune" "3" [] [] [] example_clock None).
  - vm_compute; discriminate.
  - right. exists 3%Z. split; [reflexivity | right; vm_compute; reflexivity].
Defined.

(** ** C2: every stored title is non-empty *)

Definition titles_nonempty (db : list item) : Prop :=
  Forall (fun it => Book it <> EmptyString) db.

(** A computation keeps the invariant on [database]. *)
Definition preserves {A} (m : M A) : Prop :=
  forall s x s', titles_nonempty (database s) -> m s = Some (x, s') ->
                 titles_nonempty (database s').

Ltac crush H :=
  repeat (run_in H;
    first
      [ rewrite print_matches_run in H
      | rewrite print_all_run in H
      | rewrite select_match_run in H
      | rewrite search_loop_run in H
      | match type of H with
        | context [genre_loop ?a ?b ?c (mk_state ?d ?e ?f ?g ?h ?i)] =>
            let E := fresh "E" in
            destruct (genre_loop_run d e g h i a b c f) as (? & ? & E);
            rewrite E in H
        end
      | match type of H with
        | context [view_loop ?a ?b (mk_state ?d ?e ?f ?g ?h ?i)] =>
            let E := fresh "E" in
            destruct (view_loop_run d e g h i b a f) as (? & E);
            rewrite E in H
        end
      | match type of H with
        | context [match ?x with _ => _ end] =>
            lazymatch x with
            | context [match _ with _ => _ end] => fail
            | _ => destruct x eqn:?
            end
        end ]).

Ltac finish H := try discriminate H; injection H as <- <-; cbn [database].

Lemma Forall_list_set {A} (P : A -> Prop) l i x :
  Forall P l -> P x -> Forall P (list_set l i x).
Proof.
  intros Hl Hx. revert i. induction Hl as [|y l Hy Hl IH]; intros [|i]; simpl;
    constructor; auto.
Qed.

Lemma Forall_remove_at {A} (P : A -> Prop) l i :
  Forall P l -> Forall P (remove_at l i).
Proof.
  intros Hl. revert i. induction Hl as [|y l Hy Hl IH]; intros [|i]; simpl;
    auto; constructor; auto.
Qed.

Lemma set_field_title k v it :
  Book (set_field k v it) = v \/ Book (set_field k v it) = Book it.
Proof.
  unfold set_field.
  destruct (k =? "Book"); [left; reflexivity|].
  destruct (k =? "Author"); [right; reflexivity|].
  destruct (k =? "Genre"); right; reflexivity.
Qed.

Section Invariant.
#[local] Opaque list_set remove_at.

Lemma add_item_preserves : preserves add_item.
Proof.
  intros [db ins o fs dt err] x s' Hinv H. unfold add_item in H.
  crush H; finish H; try exact Hinv.
  apply Forall_app. split; [exact Hinv|].
    constructor; [|constructor]. cbn [Book].
    apply String.eqb_neq. assumption.
Qed.

Lemma view_all_preserves : preserves view_all.
Proof.
  intros [db ins o fs dt err] x s' Hinv H. unfold view_all in H.
  crush H; finish H; exact Hinv.
Qed.

Lemma search_items_preserves : preserves search_items.
Proof.
  intros [db ins o fs dt err] x s' Hinv H. unfold search_items in H.
  crush H; finish H; exact Hinv.
Qed.

Lemma search_by_genre_preserves : preserves search_by_genre.
Proof.
  intros [db ins o fs dt err] x s' Hinv H. unfold search_by_genre in H.
  crush H; finish H; exact Hinv.
Qed.

Lemma export_to_file_preserves : preserves export_to_file.
Proof.
  intros [db ins o fs dt err] x s' Hinv H. unfold export_to_file in H.
  crush H; finish H; exact Hinv.
Qed.

Lemma edit_item_preserves : preserves edit_item.
Proof.
  intros [db ins o fs dt err] x s' Hinv H. unfold edit_item in H.
  crush H; finish H; try exact Hinv.
  apply Forall_list_set; [exact Hinv|].
  match goal with
  | Hn : nth_error _ _ = Some (_, ?b), Hf : find_matches_by_title _ _ = _,
    Hv : negb (?v =? EmptyString) = true |- Book (set_field ?k ?v ?b) <> _ =>
      rewrite <- Hf in Hn; apply selected_in_db, nth_error_In in Hn;
      destruct (set_field_title k v b) as [E|E]; rewrite E;
      [ apply negb_true_iff, String.eqb_neq in Hv; exact Hv
      | exact (proj1 (Forall_forall _ _) Hinv b Hn) ]
  end.
Qed.

Lemma delete_item_preserves : preserves delete_item.
Proof.
  intros [db ins o fs dt err] x s' Hinv H. unfold delete_item in H.
  crush H; finish H; try exact Hinv.
  apply Forall_remove_at; exact Hinv.
Qed.

Lemma menu_step_preserves : preserves menu_step.
Proof.
  intros [db ins o fs dt err] x s' Hinv H. unfold menu_step in H.
  crush H; finish H; try exact Hinv.
  all: match goal with
       | E : add_item _ = Some _ |- _ => eapply add_item_preserves; [|exact E]
       | E : view_all _ = Some _ |- _ => eapply view_all_preserves; [|exact E]
       | E : search_items _ = Some _ |- _ => eapply search_items_preserves; [|exact E]
       | E : edit_item _ = Some _ |- _ => eapply edit_item_preserves; [|exact E]
       | E : delete_item _ = Some _ |- _ => eapply delete_item_preserves; [|exact E]
       | E : search_by_genre _ = Some _ |- _ =>
           eapply search_by_genre_preserves; [|exact E]
       | E : export_to_file _ = Some _ |- _ =>
           eapply export_to_file_preserves; [|exact E]
       end; exact Hinv.
Qed.

Lemma main_loop_preserves fuel : preserves (main_loop fuel).
Proof.
  induction fuel as [|fuel IH]; intros s x s' Hinv H.
  - injection H as _ <-. exact Hinv.
  - rewrite main_loop_S in H.
    destruct (menu_step s) as [[b s1]|] eqn:E; [|discriminate H].
    pose proof (menu_step_preserves _ _ _ Hinv E) as H1.
    destruct b; [exact (IH _ _ _ H1 H)|].
    injection H as _ <-. exact H1.
Qed.

End Invariant.

(** C2: every record of the catalog has a non-empty title. The catalog
    starts empty, every handler of the menu (add, view, search, edit,
    delete, search by genre, export) keeps the invariant, and so does every
    run of the main loop from the initial state, whatever the user types. *)
Theorem titles_nonempty_invariant :
  titles_nonempty []
  /\ preserves add_item /\ preserves view_all /\ preserves search_items
  /\ preserves edit_item /\ preserves delete_item
  /\ preserves search_by_genre /\ preserves export_to_file
  /\ (forall fuel inputs dt err u s',
        main_loop fuel (init_state inputs dt err) = Some (u, s') ->
        titles_nonempty (database s')).
Proof.
  split; [constructor|].
  split; [exact add_item_preserves|]. split; [exact view_all_preserves|].
  split; [exact search_items_preserves|]. split; [exact edit_item_preserves|].
  split; [exact delete_item_preserves|]. split; [exact search_by_genre_preserves|].
  split; [exact export_to_file_preserves|].
  intros fuel inputs dt err u s' H.
  exact (main_loop_preserves fuel (init_state inputs dt err) u s' (Forall_nil _) H).
Qed.

(** ** C7: exporting *)

Lemma string_length_app (a b : string) :
  String.length (a ++ b) = String.length a + String.length b.
Proof. induction a; simpl; congruence. Qed.

Lemma parse_esc_char c r :
  parse_str_body (json_esc c ++ r) = cons_res c (parse_str_body r).
Proof. destruct c as [[] [] [] [] [] [] [] []]; reflexivity. Qed.

Lemma parse_str_body_esc s r :
  parse_str_body (json_esc_body s ++ String DQ r) = Some (s, r).
Proof.
  induction s as [|c s IH]; [reflexivity|].
  cbn [json_esc_body]. rewrite string_app_assoc, parse_esc_char, IH. reflexivity.
Qed.

(** One exported record, at the indentation of an element of the list. *)
Lemma parse_value_item f it r :
  parse_value (S (S (S (S (S f))))) (nl_ind 2 1 ++ json_encode 2 1 (item_to_json it) ++ r)
  = Some (item_to_json it, r).
Proof.
  destruct it as [b a g].
  simpl json_encode. rewrite !string_app_assoc. simpl.
  repeat (rewrite ?string_app_assoc; simpl; rewrite parse_str_body_esc; simpl).
  reflexivity.
Qed.

Fixpoint encode_rest (ind lvl : nat) (l : list json) : string :=
  match l with
  | [] => EmptyString
  | y :: ys => "," ++ nl_ind ind (S lvl) ++ json_encode ind (S lvl) y
               ++ encode_rest ind lvl ys
  end.

Lemma encode_rest_fix ind lvl xs :
  (fix go (l : list json) : string :=
     match l with
     | [] => EmptyString
     | y :: ys => "," ++ nl_ind ind (S lvl) ++ json_encode ind (S lvl) y ++ go ys
     end) xs = encode_rest ind lvl xs.
Proof. induction xs as [|y ys IH]; [reflexivity|]. cbn [encode_rest]. rewrite <- IH. reflexivity. Qed.

Lemma json_encode_array ind lvl x xs :
  json_encode ind lvl (JArr (x :: xs))
  = String "[" (nl_ind ind (S lvl) ++ json_encode ind (S lvl) x
                ++ encode_rest ind lvl xs ++ nl_ind ind lvl ++ "]").
Proof.
  cbn [json_encode]. rewrite encode_rest_fix. reflexivity.
Qed.

Lemma parse_elems_step f l v r s acc :
  parse_value f l = Some (v, r) -> skip_ws r = String "," s ->
  parse_elems (S f) l acc = parse_elems f s (v :: acc).
Proof. intros H1 H2. simpl. rewrite H1, H2. reflexivity. Qed.

Lemma parse_elems_last f l v r s acc :
  parse_value f l = Some (v, r) -> skip_ws r = String "]" s ->
  parse_elems (S f) l acc = Some (JArr (rev (v :: acc)), s).
Proof. intros H1 H2. simpl. rewrite H1, H2. reflexivity. Qed.

Lemma parse_elems_items ys : forall x f acc r,
  List.length ys + 6 <= f ->
  parse_elems f (nl_ind 2 1 ++ json_encode 2 1 (item_to_json x)
                 ++ encode_rest 2 0 (map item_to_json ys) ++ nl_ind 2 0 ++ String "]" r)
              acc
  = Some (JArr (rev acc ++ item_to_json x :: map item_to_json ys)%list, r).
Proof.
  induction ys as [|y ys IH]; intros x f acc r Hf.
  - destruct f as [|[|[|[|[|[|f]]]]]]; simpl in Hf; try lia.
    erewrite parse_elems_last; [| apply parse_value_item | reflexivity].
    reflexivity.
  - destruct f as [|[|[|[|[|[|f]]]]]]; simpl in Hf; try lia.
    erewrite parse_elems_step; [| apply parse_value_item |].
    + rewrite IH by (simpl; lia).
      simpl. rewrite <- app_assoc. reflexivity.
    + cbn [map encode_rest]. rewrite !string_app_assoc. reflexivity.
Qed.

Lemma parse_value_array f Y Z :
  skip_ws Y = String "{" Z -> parse_value (S f) (String "[" Y) = parse_elems f Y [].
Proof. intros H. simpl. rewrite H. reflexivity. Qed.

Lemma encode_rest_length xs : List.length xs <= String.length (encode_rest 2 0 xs).
Proof.
  induction xs as [|y ys IH]; [simpl; lia|].
  cbn [encode_rest]. rewrite !string_length_app. cbn [List.length].
  change (String.length ",") with 1. lia.
Qed.

Lemma json_loads_export x xs :
  json_loads (json_dump 2 (JArr (map item_to_json (x :: xs))))
  = Some (JArr (map item_to_json (x :: xs))).
Proof.
  unfold json_loads, json_dump. cbn [map]. rewrite json_encode_array.
  set (n := String.length _).
  assert (Hn : List.length xs + 6 <= n).
  { unfold n. cbn [String.length]. rewrite !string_length_app.
    pose proof (encode_rest_length (map item_to_json xs)) as H.
    rewrite length_map in H.
    change (String.length (nl_ind 2 1)) with 3.
    change (String.length (nl_ind 2 0)) with 1.
    change (String.length "]") with 1. lia. }
  assert (HY : exists Z, skip_ws (nl_ind 2 1 ++ json_encode 2 1 (item_to_json x)
                                  ++ encode_rest 2 0 (map item_to_json xs)
                                  ++ nl_ind 2 0 ++ "]") = String "{" Z).
  { destruct x; eexists; reflexivity. }
  destruct HY as [Z HY].
  rewrite (parse_value_array n _ Z HY).
  rewrite (parse_elems_items xs x n [] EmptyString Hn). reflexivity.
Qed.

(** The layout of the exported text: one record per block, each line of a
    record indented by two spaces more than its brackets. *)
Definition quoted (k : string) : string := String DQ (k ++ String DQ EmptyString).

Definition record_block (it : item) : string :=
  NL ++ "  {"
  ++ NL ++ "    " ++ quoted "Book" ++ ": " ++ json_str (Book it) ++ ","
  ++ NL ++ "    " ++ quoted "Author" ++ ": " ++ json_str (Author it) ++ ","
  ++ NL ++ "    " ++ quoted "Genre" ++ ": " ++ json_str (Genre it)
  ++ NL ++ "  }".

Definition export_layout (db : list item) : string :=
  "[" ++ String.concat "," (map record_block db) ++ NL ++ "]".

Lemma record_block_encode it :
  nl_ind 2 1 ++ json_encode 2 1 (item_to_json it) = record_block it.
Proof.
  destruct it as [b a g]. unfold record_block, item_to_json, json_str.
  cbn [json_encode Book Author Genre]. unfold json_str.
  rewrite !string_app_assoc. reflexivity.
Qed.

Lemma concat_blocks x xs :
  String.concat "," (map record_block (x :: xs))
  = record_block x ++ encode_rest 2 0 (map item_to_json xs).
Proof.
  revert x. induction xs as [|y ys IH]; intros x.
  - simpl. rewrite string_app_nil_r. reflexivity.
  - change (String.concat "," (map record_block (x :: y :: ys)))
      with (record_block x ++ "," ++ String.concat "," (map record_block (y :: ys))).
    rewrite IH. cbn [map encode_rest]. rewrite <- !record_block_encode.
    rewrite !string_app_assoc. reflexivity.
Qed.

Lemma json_dump_layout db :
  db <> [] -> json_dump 2 (JArr (map item_to_json db)) = export_layout db.
Proof.
  destruct db as [|x xs]; [congruence|]. intros _.
  unfold json_dump, export_layout. rewrite concat_blocks.
  change (map item_to_json (x :: xs)) with (item_to_json x :: map item_to_json xs).
  rewrite json_encode_array, <- record_block_encode.
  rewrite !string_app_assoc. reflexivity.
Qed.

(** Reading a [YYYYMMDD_HHMMSS] stamp back into its six fields. *)
Definition digit_of (c : ascii) : nat := nat_of_ascii c - 48.

Definition digits_value (l : list ascii) : nat :=
  fold_left (fun acc c => acc * 10 + digit_of c) l 0.

Definition stamp_fields (ts : string) : option (nat * nat * nat * nat * nat * nat) :=
  match list_ascii_of_string ts with
  | [y1; y2; y3; y4; m1; m2; d1; d2; u; h1; h2; i1; i2; s1; s2] =>
      if forallb is_digit [y1; y2; y3; y4; m1; m2; d1; d2; h1; h2; i1; i2; s1; s2]
         && Ascii.eqb u "_"
      then Some (digits_value [y1; y2; y3; y4], digits_value [m1; m2],
                 digits_value [d1; d2], digits_value [h1; h2],
                 digits_value [i1; i2], digits_value [s1; s2])
      else None
  | _ => None
  end.

Lemma nat_of_digit_char n : nat_of_ascii (digit_char (n mod 10)) = 48 + n mod 10.
Proof.
  unfold digit_char. apply nat_ascii_embedding.
  pose proof (Nat.mod_upper_bound n 10). lia.
Qed.

Lemma is_digit_digit_char n : is_digit (digit_char (n mod 10)) = true.
Proof.
  unfold is_digit. rewrite nat_of_digit_char.
  pose proof (Nat.mod_upper_bound n 10).
  apply andb_true_intro; split; apply Nat.leb_le; lia.
Qed.

Lemma digit_of_digit_char n : digit_of (digit_char (n mod 10)) = n mod 10.
Proof. unfold digit_of. rewrite nat_of_digit_char. lia. Qed.

Lemma fs_read_write fs name contents :
  fs_read (fs_write fs name contents) name = Some contents.
Proof.
  induction fs as [|[n c] r IH]; cbn [fs_write].
  - cbn [fs_read]. rewrite String.eqb_refl. reflexivity.
  - destruct (String.eqb n name) eqn:E; cbn [fs_read].
    + rewrite String.eqb_refl. reflexivity.
    + rewrite E. exact IH.
Qed.

Lemma two_digits y : y < 100 -> (0 * 10 + y / 10 mod 10) * 10 + y mod 10 = y.
Proof.
  intros H. rewrite (Nat.mod_small (y / 10)) by (apply Nat.Div0.div_lt_upper_bound; lia).
  pose proof (Nat.div_mod_eq y 10). lia.
Qed.
Lemma four_digits y : y < 100 * 100 ->
  (((0 * 10 + y / 10 / 10 / 10 mod 10) * 10 + y / 10 / 10 mod 10) * 10
   + y / 10 mod 10) * 10 + y mod 10 = y.
Proof.
  intros H.
  rewrite (Nat.mod_small (y / 10 / 10 / 10))
    by (rewrite !Nat.Div0.div_div; apply Nat.Div0.div_lt_upper_bound; lia).
  pose proof (Nat.div_mod_eq y 10). pose proof (Nat.div_mod_eq (y / 10) 10).
  pose proof (Nat.div_mod_eq (y / 10 / 10) 10). lia.
Qed.

Lemma stamp_fields_strftime dt :
  year dt < 100 * 100 -> month dt < 100 -> day dt < 100 ->
  hour dt < 100 -> minute dt < 100 -> second dt < 100 ->
  stamp_fields (strftime_stamp dt)
  = Some (year dt, month dt, day dt, hour dt, minute dt, second dt).
Proof.
  destruct dt as [y mo d h mi se]; cbn [year month day hour minute second].
  intros Hy Hmo Hd Hh Hmi Hse.
  unfold stamp_fields, strftime_stamp.
  cbn [zfill String.append list_ascii_of_string year month day hour minute second forallb].
  rewrite !is_digit_digit_char. cbn [andb Ascii.eqb Bool.eqb].
  unfold digits_value. cbn [fold_left]. rewrite !digit_of_digit_char.
  rewrite four_digits, !two_digits by assumption. reflexivity.
Qed.

(** Reading the records back out of the parsed text. *)
Definition item_of_json (v : json) : option item :=
  match v with
  | JObj [(k1, JStr b); (k2, JStr a); (k3, JStr g)] =>
      if String.eqb k1 "Book" && String.eqb k2 "Author" && String.eqb k3 "Genre"
      then Some (mk_item b a g) else None
  | _ => None
  end.

Fixpoint items_of_json (vs : list json) : option (list item) :=
  match vs with
  | [] => Some []
  | v :: vs' =>
      match item_of_json v, items_of_json vs' with
      | Some it, Some its => Some (it :: its)
      | _, _ => None
      end
  end.

Definition records_of_json (v : json) : option (list item) :=
  match v with JArr vs => items_of_json vs | _ => None end.

Lemma items_of_json_map db : items_of_json (map item_to_json db) = Some db.
Proof.
  induction db as [|[b a g] db IH]; [reflexivity|]. cbn [map items_of_json].
  rewrite IH. reflexivity.
Qed.

(** C7: exporting a non-empty catalog (the file system accepting the write)
    writes a file named [books_export_YYYYMMDD_HHMMSS.json], whose stamp reads
    back as the clock's date and time; its text is the 2-space indented
    layout [export_layout] with one block per record, keys Book, Author and
    Genre; and parsing it back gives the records of the catalog, field by
    field and in order. *)
Theorem export_roundtrip db ins out fs dt :
  db <> [] ->
  year dt < 100 * 100 -> month dt < 100 -> day dt < 100 ->
  hour dt < 100 -> minute dt < 100 -> second dt < 100 ->
  let name := "books_export_" ++ strftime_stamp dt ++ ".json" in
  exists s',
    export_to_file (mk_state db ins out fs dt None) = Some (tt, s')
    /\ database s' = db
    /\ stdout s' = app out ["Export complete: " ++ name]
    /\ stamp_fields (strftime_stamp dt)
       = Some (year dt, month dt, day dt, hour dt, minute dt, second dt)
    /\ exists contents,
         fs_read (files s') name = Some contents
         /\ contents = export_layout db
         /\ json_loads contents = Some (JArr (map item_to_json db))
         /\ records_of_json (JArr (map item_to_json db)) = Some db.
Proof.
  intros Hdb Hy Hmo Hd Hh Hmi Hse name.
  destruct db as [|x xs]; [congruence|].
  eexists. split; [unfold export_to_file; run; reflexivity|].
  cbn [database stdout files]. split; [reflexivity|]. split; [reflexivity|].
  split; [apply stamp_fields_strftime; assumption|].
  eexists. split; [apply fs_read_write|].
  split; [apply json_dump_layout; exact Hdb|].
  split; [apply json_loads_export|].
  apply items_of_json_map.
Qed.

Lemma export_roundtrip_witness :
  [dune] <> [] /\
  exists s',
    export_to_file (mk_state [dune] [] [] [] example_clock None) = Some (tt, s')
    /\ database s' = [dune]
    /\ stdout s' = app [] ["Export complete: books_export_20260307_090542.json"]
    /\ stamp_fields (strftime_stamp example_clock) = Some (2026, 3, 7, 9, 5, 42)
    /\ exists contents,
         fs_read (files s') "books_export_20260307_090542.json" = Some contents
         /\ contents = export_layout [dune]
         /\ json_loads contents = Some (JArr (map item_to_json [dune]))
         /\ records_of_json (JArr (map item_to_json [dune])) = Some [dune].
Proof.
  split; [discriminate|].
  exact (export_roundtrip [dune] [] [] [] example_clock ltac:(discriminate)
           ltac:(vm_compute; lia) ltac:(vm_compute; lia) ltac:(vm_compute; lia)
           ltac:(vm_compute; lia) ltac:(vm_compute; lia) ltac:(vm_compute; lia)).
Defined.

(* ================================================================== *)
(** * Further properties of the handlers *)

(** ** Viewing the catalog *)

Definition view_block (i : nat) (it : item) : list string :=
  [NL ++ "--- Book " ++ py_str_nat i ++ " ---"; "Book: " ++ Book it;
   "Author: " ++ Author it; "Genre: " ++ Genre it].

Fixpoint view_lines (i : nat) (items : list item) : list string :=
  match items with
  | [] => []
  | it :: r => app (view_block i it) (view_lines (S i) r)
  end.

Lemma view_loop_lines db ins fs dt err (items : list item) :
  forall i o, view_loop i items (mk_state db ins o fs dt err)
              = Some (tt, mk_state db ins (o ++ view_lines i items)%list fs dt err).
Proof.
  induction items as [|it r IH]; intros i o; simpl.
  - rewrite app_nil_r; reflexivity.
  - unfold bind, print; simpl. rewrite IH. list_eq.
Qed.

Lemma view_lines_app l1 : forall l2 i,
  view_lines i (l1 ++ l2)%list
  = app (view_lines i l1) (view_lines (i + List.length l1) l2).
Proof.
  induction l1 as [|it l1 IH]; intros l2 i; cbn [view_lines List.app List.length].
  - rewrite Nat.add_0_r. reflexivity.
  - rewrite IH, app_assoc. replace (i + S (List.length l1)) with (S i + List.length l1)
      by lia. reflexivity.
Qed.

Lemma view_all_run db ins o fs dt err :
  view_all (mk_state db ins o fs dt err)
  = Some (tt, mk_state db ins
                (o ++ match db with [] => ["No books yet!"] | _ => view_lines 1 db end)%list
                fs dt err).
Proof.
  unfold view_all. destruct db as [|it r]; [reflexivity|].
  run. apply view_loop_lines.
Qed.

(** [view_all] reads no input and changes nothing: with an empty catalog it
    prints "No books yet!", otherwise four lines per record, in catalog order,
    the [i]-th record under the heading "--- Book i ---" counted from 1. *)
Theorem view_all_output db ins o fs dt err :
  view_all (mk_state db ins o fs dt err)
  = Some (tt, mk_state db ins
                (o ++ match db with [] => ["No books yet!"] | _ => view_lines 1 db end)%list
                fs dt err).
Proof. apply view_all_run. Qed.

(** ** Searching by genre *)

Definition genre_pred (term : string) (it : item) : bool :=
  contains term (lower (Genre it)).

Definition genre_line (it : item) : string := "- " ++ Book it ++ " by " ++ Author it.

Definition genre_header (g : string) : string := NL ++ "Books in Genre '" ++ g ++ "':".

Lemma genre_loop_lines db ins fs dt err (term : string) (items : list item) :
  forall found o, genre_loop term items found (mk_state db ins o fs dt err)
    = Some (found || existsb (genre_pred term) items,
            mk_state db ins (o ++ map genre_line (filter (genre_pred term) items))%list
                     fs dt err).
Proof.
  induction items as [|it r IH]; intros found o; simpl.
  - rewrite orb_false_r, app_nil_r; reflexivity.
  - change (contains term (lower (Genre it))) with (genre_pred term it).
    destruct (genre_pred term it).
    + unfold bind, print; simpl. rewrite IH, <- app_assoc, orb_true_r. reflexivity.
    + rewrite IH. reflexivity.
Qed.

Lemma search_by_genre_run db q rest o fs dt err :
  search_by_genre (mk_state db (q :: rest) o fs dt err)
  = match db with
    | [] => Some (tt, mk_state [] (q :: rest)
                               (o ++ ["No books in the database yet!"])%list fs dt err)
    | _ =>
        let g := lower (strip q) in
        let hits := filter (genre_pred g) db in
        Some (tt, mk_state db rest
                    (o ++ genre_header g
                       :: map genre_line hits
                       ++ match hits with [] => ["No books found in that Genre."]
                                        | _ => [] end)%list
                    fs dt err)
    end.
Proof.
  unfold search_by_genre. destruct db as [|it0 db0]; [reflexivity|].
  run. rewrite genre_loop_lines. simpl orb.
  rewrite existsb_filter_nil.
  destruct (filter (genre_pred (lower (strip q))) (it0 :: db0)); run;
    unfold genre_header; rewrite ?app_nil_r; list_eq.
Qed.

(** [search_by_genre] on a non-empty catalog reads one query, prints the
    header with the stripped, lower-cased query, then "- title by author" for
    each record whose lower-cased genre contains it, in catalog order, and
    "No books found in that Genre." when there is none; on an empty catalog
    it prints a message and reads nothing.  The catalog is unchanged. *)
Theorem search_by_genre_output db q rest o fs dt err :
  search_by_genre (mk_state db (q :: rest) o fs dt err)
  = match db with
    | [] => Some (tt, mk_state [] (q :: rest)
                               (o ++ ["No books in the database yet!"])%list fs dt err)
    | _ =>
        let g := lower (strip q) in
        let hits := filter (genre_pred g) db in
        Some (tt, mk_state db rest
                    (o ++ genre_header g
                       :: map genre_line hits
                       ++ match hits with [] => ["No books found in that Genre."]
                                        | _ => [] end)%list
                    fs dt err)
    end.
Proof. apply search_by_genre_run. Qed.

(** ** Finding records by title *)

Definition title_pred (t : string) (it : item) : bool := contains t (lower (Book it)).

Lemma find_matches_from_snd t k db :
  map snd (find_matches_from t k db) = filter (title_pred t) db.
Proof.
  revert k. induction db as [|x db IH]; intros k; simpl; [reflexivity|].
  unfold title_pred at 1. destruct (contains t (lower (Book x))); simpl; rewrite IH; reflexivity.
Qed.

Lemma find_matches_from_complete t db : forall k j it,
  nth_error db j = Some it -> title_pred t it = true ->
  In (k + j, it) (find_matches_from t k db).
Proof.
  induction db as [|x db IH]; intros k j it Hj Ht; [destruct j; discriminate|].
  destruct j as [|j]; simpl in Hj |- *.
  - injection Hj as <-. unfold title_pred in Ht. rewrite Ht, Nat.add_0_r. left; reflexivity.
  - replace (k + S j) with (S k + j) by lia.
    destruct (contains t (lower (Book x))); [right|]; apply IH; assumption.
Qed.

Lemma find_matches_from_sorted t db : forall k,
  StronglySorted lt (map fst (find_matches_from t k db)).
Proof.
  induction db as [|x db IH]; intros k; simpl; [constructor|].
  destruct (contains t (lower (Book x))); [|apply IH].
  simpl. constructor; [apply IH|].
  apply Forall_forall. intros i Hi. apply in_map_iff in Hi as ([i' it] & <- & Hin).
  apply find_matches_from_In in Hin. simpl. lia.
Qed.

Lemma find_matches_by_title_props t db :
  map snd (find_matches_by_title t db) = filter (title_pred t) db
  /\ (forall i it, In (i, it) (find_matches_by_title t db) <->
                   nth_error db i = Some it /\ title_pred t it = true)
  /\ StronglySorted lt (map fst (find_matches_by_title t db)).
Proof.
  unfold find_matches_by_title. split; [apply find_matches_from_snd|].
  split; [|apply find_matches_from_sorted].
  intros i it. split.
  - intros H. pose proof (find_matches_from_In t 0 db i it H) as [_ Hn].
    rewrite Nat.sub_0_r in Hn. split; [exact Hn|].
    assert (Hf : In it (filter (title_pred t) db)).
    { rewrite <- (find_matches_from_snd t 0 db). apply in_map_iff.
      exists (i, it). split; [reflexivity|exact H]. }
    apply filter_In in Hf. apply Hf.
  - intros [Hn Ht]. exact (find_matches_from_complete t db 0 i it Hn Ht).
Qed.

(** [_find_matches_by_title] returns, with their positions in the catalog,
    exactly the records whose lower-cased title contains the search text, in
    catalog order (the positions strictly increase). *)
Theorem find_matches_by_title_spec t db :
  map snd (find_matches_by_title t db) = filter (title_pred t) db
  /\ (forall i it, In (i, it) (find_matches_by_title t db) <->
                   nth_error db i = Some it /\ title_pred t it = true)
  /\ StronglySorted lt (map fst (find_matches_by_title t db)).
Proof. apply find_matches_by_title_props. Qed.

(** ** A blank query *)

Lemma contains_empty s : contains EmptyString s = true.
Proof. destruct s; reflexivity. Qed.

Lemma search_items_run db q rest o fs dt err :
  search_items (mk_state db (q :: rest) o fs dt err)
  = match db with
    | [] => Some (tt, mk_state [] (q :: rest)
                               (o ++ ["No books in the database yet!"])%list fs dt err)
    | _ =>
        let hits := filter (search_pred (lower (strip q))) db in
        Some (tt, mk_state db rest
                    (o ++ map match_line hits
                       ++ match hits with [] => ["No items found."] | _ => [] end)%list
                    fs dt err)
    end.
Proof.
  unfold search_items. destruct db as [|it0 db0]; [reflexivity|].
  run. rewrite search_loop_run. simpl orb.
  rewrite existsb_filter_nil.
  destruct (filter (search_pred (lower (strip q))) (it0 :: db0)); run;
    rewrite app_nil_r; reflexivity.
Qed.

Lemma find_matches_from_all k db :
  find_matches_from EmptyString k db = combine (seq k (List.length db)) db.
Proof.
  revert k. induction db as [|x db IH]; intros k; simpl; [reflexivity|].
  rewrite contains_empty, IH. reflexivity.
Qed.

(** A query that is blank after [strip] matches every record: the combined
    search lists the whole catalog, the genre search lists every record, and
    the title lookup of edit and delete offers every record, numbered in
    catalog order. *)
Theorem blank_query_matches_all db q rest o fs dt err :
  db <> [] -> strip q = EmptyString ->
  search_items (mk_state db (q :: rest) o fs dt err)
  = Some (tt, mk_state db rest (o ++ map match_line db)%list fs dt err)
  /\ search_by_genre (mk_state db (q :: rest) o fs dt err)
     = Some (tt, mk_state db rest
                   (o ++ genre_header EmptyString :: map genre_line db)%list fs dt err)
  /\ find_matches_by_title (lower (strip q)) db = combine (seq 0 (List.length db)) db.
Proof.
  intros Hdb Hq.
  assert (Hs : filter (search_pred EmptyString) db = db).
  { apply forallb_filter_id, forallb_forall. intros it _. apply contains_empty. }
  assert (Hg : filter (genre_pred EmptyString) db = db).
  { apply forallb_filter_id, forallb_forall. intros it _. apply contains_empty. }
  rewrite search_items_run, search_by_genre_run. cbv zeta. rewrite Hq.
  change (lower EmptyString) with EmptyString. rewrite Hs, Hg.
  destruct db as [|it r]; [congruence|].
  split; [rewrite app_nil_r; reflexivity|].
  split; [rewrite app_nil_r; reflexivity|].
  apply find_matches_from_all.
Qed.

Lemma blank_query_matches_all_witness :
  [dune; dune2] <> [] /\ strip " " = EmptyString /\
  (search_items (mk_state [dune; dune2] [" "] [] [] example_clock None)
   = Some (tt, mk_state [dune; dune2] [] ([] ++ map match_line [dune; dune2])%list [] example_clock None)
   /\ search_by_genre (mk_state [dune; dune2] [" "] [] [] example_clock None)
      = Some (tt, mk_state [dune; dune2] []
                    ([] ++ genre_header EmptyString :: map genre_line [dune; dune2])%list
                    [] example_clock None)
   /\ find_matches_by_title (lower (strip " ")) [dune; dune2]
      = combine (seq 0 (List.length [dune; dune2])) [dune; dune2]).
Proof.
  split; [discriminate|]. split; [reflexivity|].
  apply (blank_query_matches_all [dune; dune2] " " [] [] [] example_clock None);
    [discriminate | reflexivity].
Defined.

(** ** Handlers that only read the catalog *)

Section ReadOnly.
#[local] Opaque list_set remove_at.

Lemma view_all_reads_only s x s' :
  view_all s = Some (x, s') -> database s' = database s /\ files s' = files s.
Proof.
  destruct s as [db ins o fs dt err]. intros H. unfold view_all in H.
  crush H; finish H; split; reflexivity.
Qed.

Lemma search_items_reads_only s x s' :
  search_items s = Some (x, s') -> database s' = database s /\ files s' = files s.
Proof.
  destruct s as [db ins o fs dt err]. intros H. unfold search_items in H.
  crush H; finish H; split; reflexivity.
Qed.

Lemma search_by_genre_reads_only s x s' :
  search_by_genre s = Some (x, s') -> database s' = database s /\ files s' = files s.
Proof.
  destruct s as [db ins o fs dt err]. intros H. unfold search_by_genre in H.
  crush H; finish H; split; reflexivity.
Qed.

Lemma export_to_file_keeps_db s x s' :
  export_to_file s = Some (x, s') -> database s' = database s.
Proof.
  destruct s as [db ins o fs dt err]. intros H. unfold export_to_file in H.
  crush H; finish H; reflexivity.
Qed.

End ReadOnly.

(** Viewing, both searches and exporting never change the catalog; viewing
    and searching do not touch the files either. *)
Theorem read_only_handlers :
  (forall s x s', view_all s = Some (x, s') ->
                  database s' = database s /\ files s' = files s)
  /\ (forall s x s', search_items s = Some (x, s') ->
                     database s' = database s /\ files s' = files s)
  /\ (forall s x s', search_by_genre s = Some (x, s') ->
                     database s' = database s /\ files s' = files s)
  /\ (forall s x s', export_to_file s = Some (x, s') -> database s' = database s).
Proof.
  split; [exact view_all_reads_only|].
  split; [exact search_items_reads_only|].
  split; [exact search_by_genre_reads_only|].
  exact export_to_file_keeps_db.
Qed.

(** ** Exporting: failure, and the other files *)

Lemma export_to_file_error db ins o fs dt msg :
  db <> [] ->
  export_to_file (mk_state db ins o fs dt (Some msg))
  = Some (tt, mk_state db ins (app o ["Export failed: " ++ msg]) fs dt (Some msg)).
Proof. destruct db; [congruence|]. intros _. reflexivity. Qed.

(** When opening the export file raises, [export_to_file] prints
    "Export failed: " and the message of the exception, and returns: the
    files and the catalog are as they were and no input is read. *)
Theorem export_failure db ins o fs dt msg :
  db <> [] ->
  export_to_file (mk_state db ins o fs dt (Some msg))
  = Some (tt, mk_state db ins (app o ["Export failed: " ++ msg]) fs dt (Some msg)).
Proof. apply export_to_file_error. Qed.

Lemma export_failure_witness :
  [dune] <> [] /\
  export_to_file (mk_state [dune] [] [] [] example_clock (Some "Permission denied"))
  = Some (tt, mk_state [dune] [] (app [] ["Export failed: " ++ "Permission denied"])
                       [] example_clock (Some "Permission denied")).
Proof. split; [discriminate|]. apply export_failure. discriminate. Defined.

Lemma fs_read_write_other fs name contents n :
  n <> name -> fs_read (fs_write fs name contents) n = fs_read fs n.
Proof.
  intros Hn. induction fs as [|[m c] r IH]; cbn [fs_write fs_read].
  - destruct (String.eqb_spec name n); [congruence | reflexivity].
  - destruct (String.eqb_spec m name) as [->|Hm]; cbn [fs_read].
    + destruct (String.eqb_spec name n); [congruence | reflexivity].
    + destruct (String.eqb m n); [reflexivity | exact IH].
Qed.

(** A successful export writes the one file [books_export_<stamp>.json]:
    every other file reads as before, and no input is read. *)
Theorem export_other_files_untouched db ins o fs dt :
  db <> [] ->
  exists s',
    export_to_file (mk_state db ins o fs dt None) = Some (tt, s')
    /\ stdin s' = ins
    /\ (forall n, n <> "books_export_" ++ strftime_stamp dt ++ ".json" ->
                  fs_read (files s') n = fs_read fs n).
Proof.
  intros Hdb. destruct db as [|x xs]; [congruence|].
  eexists. split; [unfold export_to_file; run; reflexivity|].
  cbn [stdin files]. split; [reflexivity|].
  intros n Hn. apply fs_read_write_other. exact Hn.
Qed.

Lemma export_other_files_untouched_witness :
  [dune] <> [] /\
  exists s',
    export_to_file (mk_state [dune] [] [] [("notes.txt", "keep")] example_clock None)
    = Some (tt, s')
    /\ stdin s' = []
    /\ (forall n, n <> "books_export_" ++ strftime_stamp example_clock ++ ".json" ->
                  fs_read (files s') n = fs_read [("notes.txt", "keep")] n).
Proof. split; [discriminate|]. apply export_other_files_untouched. discriminate. Defined.

(** ** Editing and deleting when nothing matches *)

Lemma edit_item_nomatch db t rest o fs dt err :
  db <> [] -> find_matches_by_title (lower (strip t)) db = [] ->
  edit_item (mk_state db (t :: rest) o fs dt err)
  = Some (tt, mk_state db rest (o ++ ["No books found with that title."])%list fs dt err).
Proof.
  intros Hdb Hm. destruct db as [|it0 db0]; [congruence|].
  unfold edit_item. run. rewrite Hm. reflexivity.
Qed.

Lemma delete_item_nomatch db t rest o fs dt err :
  db <> [] -> find_matches_by_title (lower (strip t)) db = [] ->
  delete_item (mk_state db (t :: rest) o fs dt err)
  = Some (tt, mk_state db rest (o ++ ["No books found with that title."])%list fs dt err).
Proof.
  intros Hdb Hm. destruct db as [|it0 db0]; [congruence|].
  unfold delete_item. run. rewrite Hm. reflexivity.
Qed.

(** With an empty catalog [edit_item] and [delete_item] print their message
    and read nothing, whatever the input holds.  On a non-empty catalog, when
    no title contains the stripped, lower-cased search text, they print
    "No books found with that title." after reading only that line.  The
    catalog is unchanged in both cases. *)
Theorem edit_delete_nothing_to_select db t ins rest o fs dt err :
  (edit_item (mk_state [] ins o fs dt err)
   = Some (tt, mk_state [] ins (o ++ ["No books to edit yet!"])%list fs dt err)
   /\ delete_item (mk_state [] ins o fs dt err)
      = Some (tt, mk_state [] ins (o ++ ["No books to delete yet!"])%list fs dt err))
  /\ (db <> [] -> find_matches_by_title (lower (strip t)) db = [] ->
      edit_item (mk_state db (t :: rest) o fs dt err)
      = Some (tt, mk_state db rest (o ++ ["No books found with that title."])%list fs dt err)
      /\ delete_item (mk_state db (t :: rest) o fs dt err)
         = Some (tt, mk_state db rest (o ++ ["No books found with that title."])%list fs dt err)).
Proof.
  split; [split; reflexivity|].
  intros Hdb Hm. split; [apply edit_item_nomatch | apply delete_item_nomatch]; assumption.
Qed.

Lemma edit_delete_nothing_to_select_witness :
  (edit_item (mk_state [] ["1"; "Dune"] [] [] example_clock None)
   = Some (tt, mk_state [] ["1"; "Dune"] ([] ++ ["No books to edit yet!"])%list [] example_clock None)
   /\ delete_item (mk_state [] ["1"; "Dune"] [] [] example_clock None)
      = Some (tt, mk_state [] ["1"; "Dune"] ([] ++ ["No books to delete yet!"])%list [] example_clock None))
  /\ [dune; dune2] <> [] /\ find_matches_by_title (lower (strip " Emma ")) [dune; dune2] = []
  /\ edit_item (mk_state [dune; dune2] [" Emma "] [] [] example_clock None)
     = Some (tt, mk_state [dune; dune2] [] ([] ++ ["No books found with that title."])%list
                          [] example_clock None)
  /\ delete_item (mk_state [dune; dune2] [" Emma "] [] [] example_clock None)
     = Some (tt, mk_state [dune; dune2] [] ([] ++ ["No books found with that title."])%list
                          [] example_clock None).
Proof.
  destruct (edit_delete_nothing_to_select [dune; dune2] " Emma " ["1"; "Dune"] []
              [] [] example_clock None) as [He _].
  destruct (edit_delete_nothing_to_select [dune; dune2] " Emma " [] []
              [] [] example_clock None) as [_ Hn].
  split; [exact He|].
  assert (Hdb : [dune; dune2] <> []) by discriminate.
  assert (Hm : find_matches_by_title (lower (strip " Emma ")) [dune; dune2] = [])
    by (vm_compute; reflexivity).
  split; [exact Hdb|]. split; [exact Hm|]. exact (Hn Hdb Hm).
Defined.

(** ** The menu *)

Lemma menu_step_other db c ins o fs dt err :
  ~ In (strip c) ["1"; "2"; "3"; "4"; "5"; "6"; "7"; "8"] ->
  menu_step (mk_state db (c :: ins) o fs dt err)
  = Some (true, mk_state db ins (o ++ menu_lines ++ ["Invalid option."])%list fs dt err).
Proof.
  intros Hc. unfold menu_step. run. rewrite print_all_run. run.
  repeat match goal with
  | |- context [strip c =? ?k] =>
      destruct (String.eqb_spec (strip c) k) as [E|_];
        [exfalso; apply Hc; rewrite E; simpl; tauto|]
  end.
  run. rewrite <- app_assoc. reflexivity.
Qed.

Lemma menu_step_exit db c ins o fs dt err :
  strip c = "8" ->
  menu_step (mk_state db (c :: ins) o fs dt err)
  = Some (false, mk_state db ins (o ++ menu_lines ++ ["Goodbye!"])%list fs dt err).
Proof.
  intros Hc. unfold menu_step. run. rewrite print_all_run. run. rewrite Hc.
  cbn [String.eqb Ascii.eqb Bool.eqb].
  run. rewrite <- app_assoc. reflexivity.
Qed.

(** Option 8 (after [strip]) prints "Goodbye!" after the menu and ends [main]:
    however many more iterations the loop is given, nothing else is read or
    printed and the catalog is unchanged. *)
Theorem menu_exit db c ins o fs dt err fuel :
  strip c = "8" ->
  main_loop (S fuel) (mk_state db (c :: ins) o fs dt err)
  = Some (tt, mk_state db ins (o ++ menu_lines ++ ["Goodbye!"])%list fs dt err).
Proof. intros Hc. rewrite main_loop_S, menu_step_exit by exact Hc. reflexivity. Qed.

Lemma menu_exit_witness :
  strip " 8 " = "8" /\
  main_loop 5 (mk_state [dune] [" 8 "; "1"] [] [] example_clock None)
  = Some (tt, mk_state [dune] ["1"] ([] ++ menu_lines ++ ["Goodbye!"])%list [] example_clock None).
Proof. split; [reflexivity|]. apply (menu_exit [dune] " 8 " ["1"] [] [] example_clock None 4). reflexivity. Defined.

(** An option that is none of 1 to 8 after [strip] prints "Invalid option."
    after the menu and goes on with the next iteration, the catalog and the
    files unchanged. *)
Theorem menu_invalid_option db c ins o fs dt err fuel :
  ~ In (strip c) ["1"; "2"; "3"; "4"; "5"; "6"; "7"; "8"] ->
  main_loop (S fuel) (mk_state db (c :: ins) o fs dt err)
  = main_loop fuel (mk_state db ins (o ++ menu_lines ++ ["Invalid option."])%list fs dt err).
Proof. intros Hc. rewrite main_loop_S, menu_step_other by exact Hc. reflexivity. Qed.

Lemma menu_invalid_option_witness :
  ~ In (strip "9") ["1"; "2"; "3"; "4"; "5"; "6"; "7"; "8"] /\
  main_loop 3 (mk_state [dune] ["9"; "8"] [] [] example_clock None)
  = main_loop 2 (mk_state [dune] ["8"] ([] ++ menu_lines ++ ["Invalid option."])%list
                          [] example_clock None).
Proof.
  split; [simpl; intuition discriminate|].
  apply (menu_invalid_option [dune] "9" ["8"] [] [] example_clock None 2).
  simpl; intuition discriminate.
Defined.

(** ** [str(k)] read back by [int()] *)

Lemma dec_aux_app f : forall n acc, dec_aux f n acc = dec_aux f n EmptyString ++ acc.
Proof.
  induction f as [|f IH]; intros n acc; [reflexivity|]. cbn [dec_aux].
  destruct (Nat.ltb n 10); [reflexivity|].
  rewrite IH, (IH (n / 10) (String _ EmptyString)), string_app_assoc. reflexivity.
Qed.

Lemma dec_aux_digits f : forall n acc,
  forallb is_digit (list_ascii_of_string acc) = true ->
  forallb is_digit (list_ascii_of_string (dec_aux f n acc)) = true.
Proof.
  induction f as [|f IH]; intros n acc H; [exact H|]. cbn [dec_aux].
  assert (H' : forallb is_digit (list_ascii_of_string
                 (String (digit_char (n mod 10)) acc)) = true)
    by (cbn [list_ascii_of_string forallb]; rewrite is_digit_digit_char; exact H).
  destruct (Nat.ltb n 10); [exact H' | apply IH; exact H'].
Qed.

Lemma dec_aux_nonempty f n : 0 < f -> dec_aux f n EmptyString <> EmptyString.
Proof.
  destruct f as [|f]; [lia|]. intros _. cbn [dec_aux].
  destruct (Nat.ltb n 10); [discriminate|].
  rewrite dec_aux_app. destruct (dec_aux f (n / 10) EmptyString); discriminate.
Qed.

Lemma digit_not_underscore c : is_digit c = true -> (c =? "_")%char = false.
Proof.
  intros H. destruct (Ascii.eqb_spec c "_") as [->|_]; [discriminate H | reflexivity].
Qed.

Lemma digit_val_digit c :
  is_digit c = true -> digit_val c = Some (Z.of_nat (nat_of_ascii c - 48)).
Proof. intros H. unfold digit_val. rewrite H. reflexivity. Qed.

Lemma py_digits_app l1 : forall l2 acc,
  forallb is_digit l1 = true ->
  py_digits (l1 ++ l2) acc
  = match py_digits l1 acc with Some v => py_digits l2 v | None => None end.
Proof.
  induction l1 as [|c l1 IH]; intros l2 acc H; [reflexivity|].
  apply andb_true_iff in H as [Hc H]. cbn [List.app py_digits].
  rewrite (digit_not_underscore c Hc), (digit_val_digit c Hc). apply IH. exact H.
Qed.

Lemma py_unsigned_app l1 l2 :
  l1 <> [] -> forallb is_digit l1 = true ->
  py_unsigned (l1 ++ l2)
  = match py_unsigned l1 with Some v => py_digits l2 v | None => None end.
Proof.
  destruct l1 as [|c l1]; [congruence|]. intros _ H.
  apply andb_true_iff in H as [Hc H]. cbn [List.app py_unsigned].
  rewrite (digit_val_digit c Hc). apply py_digits_app. exact H.
Qed.

Lemma digit_val_digit_char n :
  digit_val (digit_char (n mod 10)) = Some (Z.of_nat (n mod 10)).
Proof.
  rewrite digit_val_digit by apply is_digit_digit_char.
  rewrite nat_of_digit_char. f_equal. f_equal. lia.
Qed.

Lemma py_unsigned_dec_aux f : forall n,
  n < f -> py_unsigned (list_ascii_of_string (dec_aux f n EmptyString)) = Some (Z.of_nat n).
Proof.
  induction f as [|f IH]; intros n Hn; [lia|]. cbn [dec_aux].
  destruct (Nat.ltb_spec n 10) as [Hlt|Hge].
  - cbn [list_ascii_of_string py_unsigned py_digits]. rewrite digit_val_digit_char.
    rewrite Nat.mod_small by exact Hlt. reflexivity.
  - rewrite dec_aux_app, list_ascii_of_string_app.
    assert (Hd : n / 10 < f).
    { apply Nat.Div0.div_lt_upper_bound. lia. }
    rewrite py_unsigned_app.
    + rewrite (IH (n / 10) Hd). cbn [list_ascii_of_string py_digits].
      rewrite digit_not_underscore by apply is_digit_digit_char.
      rewrite digit_val_digit_char. f_equal.
      pose proof (Nat.div_mod_eq n 10). lia.
    + intros E. apply (dec_aux_nonempty f (n / 10)); [lia|].
      destruct (dec_aux f (n / 10) EmptyString); [reflexivity | discriminate E].
    + apply dec_aux_digits. reflexivity.
Qed.

Lemma forallb_rev {A} (p : A -> bool) l : forallb p (rev l) = forallb p l.
Proof.
  induction l as [|x l IH]; [reflexivity|]. cbn [rev forallb].
  rewrite forallb_app, IH. cbn [forallb]. rewrite andb_true_r, andb_comm. reflexivity.
Qed.

Lemma digit_not_space c : is_digit c = true -> py_isspace c = false.
Proof.
  unfold is_digit, py_isspace. intros H.
  apply andb_true_iff in H as [H1 H2]. apply Nat.leb_le in H1, H2.
  rewrite (proj2 (Nat.leb_gt (nat_of_ascii c) 13)),
    (proj2 (Nat.leb_gt (nat_of_ascii c) 32)) by lia.
  rewrite (proj2 (Nat.eqb_neq (nat_of_ascii c) 133)),
    (proj2 (Nat.eqb_neq (nat_of_ascii c) 160)) by lia.
  rewrite !andb_false_r. reflexivity.
Qed.

Lemma digit_not_int_space c : is_digit c = true -> int_isspace c = false.
Proof.
  unfold is_digit, int_isspace. intros H.
  apply andb_true_iff in H as [H1 H2]. apply Nat.leb_le in H1, H2.
  rewrite (proj2 (Nat.leb_gt (nat_of_ascii c) 13)) by lia.
  rewrite (proj2 (Nat.eqb_neq (nat_of_ascii c) 32)),
    (proj2 (Nat.eqb_neq (nat_of_ascii c) 133)),
    (proj2 (Nat.eqb_neq (nat_of_ascii c) 160)) by lia.
  rewrite !andb_false_r. reflexivity.
Qed.

Lemma int_drop_space_digits l : forallb is_digit l = true -> int_drop_space l = l.
Proof.
  destruct l as [|c l]; [reflexivity|]. intros H. apply andb_true_iff in H as [Hc _].
  cbn [int_drop_space]. rewrite (digit_not_int_space c Hc). reflexivity.
Qed.

Lemma int_trim_digits l : forallb is_digit l = true -> int_trim l = l.
Proof.
  intros H. unfold int_trim.
  rewrite (int_drop_space_digits l H).
  rewrite int_drop_space_digits by (rewrite forallb_rev; exact H).
  apply rev_involutive.
Qed.

Lemma drop_space_digits l : forallb is_digit l = true -> drop_space l = l.
Proof.
  destruct l as [|c l]; [reflexivity|]. intros H. apply andb_true_iff in H as [Hc _].
  cbn [drop_space]. rewrite (digit_not_space c Hc). reflexivity.
Qed.

Lemma strip_digits s : forallb is_digit (list_ascii_of_string s) = true -> strip s = s.
Proof.
  intros H. unfold strip.
  rewrite (drop_space_digits (list_ascii_of_string s) H).
  rewrite drop_space_digits by (rewrite forallb_rev; exact H).
  rewrite rev_involutive. apply string_of_list_ascii_of_string.
Qed.

Lemma py_int_str_nat k : py_int (strip (py_str_nat k)) = Some (Z.of_nat k).
Proof.
  assert (Hd : forallb is_digit (list_ascii_of_string (py_str_nat k)) = true)
    by (apply dec_aux_digits; reflexivity).
  rewrite strip_digits by exact Hd. unfold py_int. rewrite int_trim_digits by exact Hd.
  pose proof (py_unsigned_dec_aux (S k) k (Nat.lt_succ_diag_r k)) as Hu.
  unfold py_str_nat in *.
  destruct (list_ascii_of_string (dec_aux (S k) k EmptyString)) as [|c r] eqn:E;
    [discriminate Hu|].
  apply andb_true_iff in Hd as [Hc _].
  destruct (Ascii.eqb_spec c "+") as [->|_]; [discriminate Hc|].
  destruct (Ascii.eqb_spec c "-") as [->|_]; [discriminate Hc|].
  exact Hu.
Qed.

Definition match_entry (idx : nat) (it : item) : string :=
  py_str_nat idx ++ ". " ++ Book it ++ " by " ++ Author it ++ " (" ++ Genre it ++ ")".

Lemma numbered_lines_nth ms : forall idx j,
  nth_error (numbered_lines idx ms) j
  = option_map (fun p => match_entry (idx + j) (snd p)) (nth_error ms j).
Proof.
  induction ms as [|[i it] ms IH]; intros idx j; [destruct j; reflexivity|].
  destruct j as [|j]; cbn [numbered_lines nth_error].
  - rewrite Nat.add_0_r. reflexivity.
  - rewrite IH. f_equal. replace (idx + S j) with (S idx + j) by lia. reflexivity.
Qed.

(** Typing back the number printed in front of a match selects that match:
    for [1 <= k <= len(matches)], the [k]-th line of the list starts with
    [str(k)], and answering [str(k)] to the prompt selects the [k]-th match,
    reading just that line and printing nothing. *)
Theorem select_displayed_number ms k rest db o fs dt err :
  1 <= k <= List.length ms ->
  exists i it,
    nth_error ms (k - 1) = Some (i, it)
    /\ nth_error (numbered_lines 1 ms) (k - 1) = Some (match_entry k it)
    /\ select_match ms (mk_state db (py_str_nat k :: rest) o fs dt err)
       = Some (Some (i, it), mk_state db rest o fs dt err).
Proof.
  intros Hk.
  destruct (nth_error ms (k - 1)) as [[i it]|] eqn:E;
    [|apply nth_error_None in E; lia].
  exists i, it. split; [reflexivity|].
  split; [rewrite numbered_lines_nth, E; cbn [option_map snd];
          replace (1 + (k - 1)) with k by lia; reflexivity|].
  rewrite select_match_run, py_int_str_nat.
  assert (Hb : ((1 <=? Z.of_nat k)%Z && (Z.of_nat k <=? Z.of_nat (List.length ms))%Z)
               = true) by (apply andb_true_iff; split; apply Z.leb_le; lia).
  rewrite Hb. replace (Z.to_nat (Z.of_nat k - 1)) with (k - 1) by lia.
  rewrite E. reflexivity.
Qed.

Lemma select_displayed_number_witness :
  1 <= 2 <= List.length (find_matches_by_title "dune" [dune; dune2]) /\
  exists i it,
    nth_error (find_matches_by_title "dune" [dune; dune2]) (2 - 1) = Some (i, it)
    /\ nth_error (numbered_lines 1 (find_matches_by_title "dune" [dune; dune2])) (2 - 1)
       = Some (match_entry 2 it)
    /\ select_match (find_matches_by_title "dune" [dune; dune2])
         (mk_state [dune; dune2] (py_str_nat 2 :: []) [] [] example_clock None)
       = Some (Some (i, it), mk_state [dune; dune2] [] [] [] example_clock None).
Proof.
  split; [vm_compute; lia|].
  apply select_displayed_number. vm_compute; lia.
Defined.

(** ** Queries ignore case *)

Lemma list_ascii_map_string f s :
  list_ascii_of_string (map_string f s) = map f (list_ascii_of_string s).
Proof. induction s; simpl; congruence. Qed.

Lemma string_of_list_map f l :
  string_of_list_ascii (map f l) = map_string f (string_of_list_ascii l).
Proof. induction l; simpl; congruence. Qed.

Lemma drop_space_map f l :
  (forall c, py_isspace (f c) = py_isspace c) ->
  drop_space (map f l) = map f (drop_space l).
Proof.
  intros Hf. induction l as [|c l IH]; [reflexivity|]. cbn [map drop_space].
  rewrite Hf. destruct (py_isspace c); [exact IH | reflexivity].
Qed.

Lemma strip_map f s :
  (forall c, py_isspace (f c) = py_isspace c) ->
  strip (map_string f s) = map_string f (strip s).
Proof.
  intros Hf. unfold strip.
  rewrite list_ascii_map_string, drop_space_map by exact Hf.
  rewrite <- map_rev, drop_space_map by exact Hf.
  rewrite <- map_rev. apply string_of_list_map.
Qed.

Lemma map_string_compose f g s :
  map_string f (map_string g s) = map_string (fun c => f (g c)) s.
Proof. induction s; simpl; congruence. Qed.

Lemma map_string_ext f g s : (forall c, f c = g c) -> map_string f s = map_string g s.
Proof. intros H. induction s; simpl; congruence. Qed.

Lemma lower_char_space c : py_isspace (lower_char c) = py_isspace c.
Proof. destruct c as [[] [] [] [] [] [] [] []]; reflexivity. Qed.

Lemma lower_strip q : lower (strip q) = strip (lower q).
Proof. unfold lower. symmetry. apply strip_map. exact lower_char_space. Qed.

Lemma handlers_same_query db t t' rest o fs dt err :
  db <> [] -> lower (strip t) = lower (strip t') ->
  search_items (mk_state db (t :: rest) o fs dt err)
  = search_items (mk_state db (t' :: rest) o fs dt err)
  /\ search_by_genre (mk_state db (t :: rest) o fs dt err)
     = search_by_genre (mk_state db (t' :: rest) o fs dt err)
  /\ edit_item (mk_state db (t :: rest) o fs dt err)
     = edit_item (mk_state db (t' :: rest) o fs dt err)
  /\ delete_item (mk_state db (t :: rest) o fs dt err)
     = delete_item (mk_state db (t' :: rest) o fs dt err).
Proof.
  intros Hdb H. destruct db as [|it0 db0]; [congruence|].
  split; [unfold search_items|split; [unfold search_by_genre|split; [unfold edit_item|unfold delete_item]]];
    run; rewrite H; reflexivity.
Qed.

(** On a non-empty catalog, the query of both searches and the title typed
    to edit or delete are only used after [strip] and [lower]: two answers
    with the same [str.lower()] (say the same text typed in upper and in lower
    case, Latin-1 letters included) give exactly the same run (output,
    catalog and input left). *)
Theorem queries_ignore_case db q q' rest o fs dt err :
  db <> [] ->
  lower q = lower q' ->
  search_items (mk_state db (q :: rest) o fs dt err)
  = search_items (mk_state db (q' :: rest) o fs dt err)
  /\ search_by_genre (mk_state db (q :: rest) o fs dt err)
     = search_by_genre (mk_state db (q' :: rest) o fs dt err)
  /\ edit_item (mk_state db (q :: rest) o fs dt err)
     = edit_item (mk_state db (q' :: rest) o fs dt err)
  /\ delete_item (mk_state db (q :: rest) o fs dt err)
     = delete_item (mk_state db (q' :: rest) o fs dt err).
Proof.
  intros Hdb Hq. apply handlers_same_query; [exact Hdb|].
  rewrite !lower_strip, Hq. reflexivity.
Qed.

(** "\xc9mile" (with the Latin-1 capital E acute) and its queries. *)
Definition E_acute_cap : ascii := "201"%char.
Definition E_acute : ascii := "233"%char.
Definition emile : item :=
  mk_item (String E_acute_cap "mile") "Rousseau" "Education".
Definition emile_upper_query : string := String " " (String E_acute_cap "MILE").
Definition emile_lower_query : string := String " " (String E_acute "mile").

Lemma queries_ignore_case_witness :
  [emile] <> [] /\ lower emile_upper_query = lower emile_lower_query /\
  (search_items (mk_state [emile] [emile_upper_query; "1"] [] [] example_clock None)
   = search_items (mk_state [emile] [emile_lower_query; "1"] [] [] example_clock None)
   /\ search_by_genre (mk_state [emile] [emile_upper_query; "1"] [] [] example_clock None)
      = search_by_genre (mk_state [emile] [emile_lower_query; "1"] [] [] example_clock None)
   /\ edit_item (mk_state [emile] [emile_upper_query; "1"] [] [] example_clock None)
      = edit_item (mk_state [emile] [emile_lower_query; "1"] [] [] example_clock None)
   /\ delete_item (mk_state [emile] [emile_upper_query; "1"] [] [] example_clock None)
      = delete_item (mk_state [emile] [emile_lower_query; "1"] [] [] example_clock None)).
Proof.
  split; [discriminate|]. split; [vm_compute; reflexivity|].
  apply (queries_ignore_case [emile] emile_upper_query emile_lower_query ["1"] [] []
           example_clock None); [discriminate | vm_compute; reflexivity].
Defined.

(** ** Adding, then viewing and looking up *)

Lemma add_item_run db b a g rest o fs dt err :
  add_item (mk_state db (b :: a :: g :: rest) o fs dt err)
  = if strip b =? EmptyString
    then Some (tt, mk_state db rest (o ++ ["Book title cannot be empty."])%list
                            fs dt err)
    else Some (tt, mk_state (db ++ [mk_item (strip b) (strip a) (strip g)])%list
                            rest (o ++ ["Book added successfully!"])%list fs dt err).
Proof.
  unfold add_item. run. cbn [Book].
  destruct (strip b =? EmptyString); run; reflexivity.
Qed.

Lemma contains_self s : contains s s = true.
Proof.
  pose proof (contains_app_r s EmptyString EmptyString) as H.
  cbn [String.append] in H. rewrite string_app_nil_r in H. exact H.
Qed.

(** A record added with a non-empty title is then listed last by
    [view_all], under the number [len(database) + 1], and the title lookup of
    edit and delete offers it, at its position, when given its own title. *)
Theorem add_then_view_and_find db b a g rest o fs dt err :
  strip b <> EmptyString ->
  let it := mk_item (strip b) (strip a) (strip g) in
  add_item (mk_state db (b :: a :: g :: rest) o fs dt err)
  = Some (tt, mk_state (db ++ [it])%list rest (o ++ ["Book added successfully!"])%list
                       fs dt err)
  /\ (forall o', view_all (mk_state (db ++ [it])%list rest o' fs dt err)
                 = Some (tt, mk_state (db ++ [it])%list rest
                               (o' ++ view_lines 1 db
                                   ++ view_block (S (List.length db)) it)%list fs dt err))
  /\ In (List.length db, it) (find_matches_by_title (lower (strip b)) (db ++ [it])%list).
Proof.
  intros Hb it. split.
  - rewrite add_item_run. destruct (String.eqb_spec (strip b) EmptyString); [contradiction|].
    reflexivity.
  - split.
    + intros o'. rewrite view_all_run.
      rewrite (match_nonnil (db ++ [it])%list) by (intros E; symmetry in E; exact (app_cons_not_nil db [] it E)).
      rewrite view_lines_app. cbn [view_lines]. rewrite app_nil_r.
      replace (1 + List.length db) with (S (List.length db)) by lia. reflexivity.
    + apply (find_matches_from_complete _ _ 0 (List.length db) it).
      * rewrite nth_error_app2, Nat.sub_diag by lia. reflexivity.
      * apply contains_self.
Qed.

Lemma add_then_view_and_find_witness :
  strip " Emma " <> EmptyString /\
  (add_item (mk_state [dune] [" Emma "; "Austen"; "Romance"] [] [] example_clock None)
   = Some (tt, mk_state ([dune] ++ [mk_item (strip " Emma ") (strip "Austen") (strip "Romance")])%list
                        [] ([] ++ ["Book added successfully!"])%list [] example_clock None)
   /\ (forall o', view_all (mk_state ([dune] ++ [mk_item (strip " Emma ") (strip "Austen") (strip "Romance")])%list [] o' [] example_clock None)
                  = Some (tt, mk_state ([dune] ++ [mk_item (strip " Emma ") (strip "Austen") (strip "Romance")])%list []
                                (o' ++ view_lines 1 [dune]
                                    ++ view_block (S (List.length [dune]))
                                         (mk_item (strip " Emma ") (strip "Austen") (strip "Romance")))%list
                                [] example_clock None))
   /\ In (List.length [dune], mk_item (strip " Emma ") (strip "Austen") (strip "Romance"))
         (find_matches_by_title (lower (strip " Emma "))
            ([dune] ++ [mk_item (strip " Emma ") (strip "Austen") (strip "Romance")])%list)).
Proof.
  split; [vm_compute; discriminate|].
  apply (add_then_view_and_find [dune] " Emma " "Austen" "Romance" [] [] [] example_clock None).
  vm_compute; discriminate.
Defined.

(** ** Renaming a record, then looking it up *)



(** ** The exported text is ASCII *)

Definition ascii_text (s : string) : bool :=
  forallb (fun c => Nat.ltb (nat_of_ascii c) 128) (list_ascii_of_string s).

Lemma ascii_text_app a b : ascii_text (a ++ b) = ascii_text a && ascii_text b.
Proof. unfold ascii_text. rewrite list_ascii_of_string_app, forallb_app. reflexivity. Qed.

Lemma json_esc_ascii c : ascii_text (json_esc c) = true.
Proof. destruct c as [[] [] [] [] [] [] [] []]; reflexivity. Qed.

Lemma json_str_ascii s : ascii_text (json_str s) = true.
Proof.
  unfold json_str. change (ascii_text (String DQ (json_esc_body s ++ String DQ EmptyString)))
    with (ascii_text (json_esc_body s ++ String DQ EmptyString)).
  rewrite ascii_text_app. rewrite andb_true_r.
  induction s as [|c s IH]; [reflexivity|]. cbn [json_esc_body].
  rewrite ascii_text_app, json_esc_ascii, IH. reflexivity.
Qed.

Lemma record_block_ascii it : ascii_text (record_block it) = true.
Proof.
  unfold record_block. rewrite !ascii_text_app, !json_str_ascii. reflexivity.
Qed.

Lemma concat_ascii sep l :
  ascii_text sep = true -> forallb ascii_text l = true ->
  ascii_text (String.concat sep l) = true.
Proof.
  intros Hs. induction l as [|x l IH]; intros Hl; [reflexivity|].
  apply andb_true_iff in Hl as [Hx Hl].
  destruct l as [|y l]; [exact Hx|].
  change (String.concat sep (x :: y :: l)) with (x ++ sep ++ String.concat sep (y :: l)).
  rewrite !ascii_text_app, Hx, Hs, IH by exact Hl. reflexivity.
Qed.

Lemma export_layout_ascii db : ascii_text (export_layout db) = true.
Proof.
  unfold export_layout. rewrite !ascii_text_app.
  rewrite concat_ascii; [reflexivity | reflexivity |].
  apply forallb_forall. intros x Hx. apply in_map_iff in Hx as (it & <- & _).
  apply record_block_ascii.
Qed.

(** The file written by a successful export holds only ASCII characters
    (code points below 128), whatever the titles, authors and genres
    contain: [json.dump] escapes every other character. *)
Theorem export_file_ascii db ins o fs dt :
  db <> [] ->
  exists s' contents,
    export_to_file (mk_state db ins o fs dt None) = Some (tt, s')
    /\ fs_read (files s') ("books_export_" ++ strftime_stamp dt ++ ".json") = Some contents
    /\ ascii_text contents = true.
Proof.
  intros Hdb. destruct db as [|x xs] eqn:Edb; [congruence|].
  eexists _, _. split; [unfold export_to_file; run; reflexivity|].
  cbn [files]. split; [apply fs_read_write|].
  rewrite <- Edb in Hdb |- *. rewrite json_dump_layout by exact Hdb.
  apply export_layout_ascii.
Qed.

Lemma export_file_ascii_witness :
  [mk_item ("Caf" ++ String "233" EmptyString) "Anon" "Misc"] <> [] /\
  exists s' contents,
    export_to_file (mk_state [mk_item ("Caf" ++ String "233" EmptyString) "Anon" "Misc"]
                      [] [] [] example_clock None) = Some (tt, s')
    /\ fs_read (files s') ("books_export_" ++ strftime_stamp example_clock ++ ".json")
       = Some contents
    /\ ascii_text contents = true.
Proof. split; [discriminate|]. apply export_file_ascii. discriminate. Defined.

(** ** Every stored field is stripped *)

Lemma drop_space_idem l : drop_space (drop_space l) = drop_space l.
Proof.
  induction l as [|c l IH]; [reflexivity|]. cbn [drop_space].
  destruct (py_isspace c) eqn:E; [exact IH|]. cbn [drop_space]. rewrite E. reflexivity.
Qed.

Lemma drop_space_last l c :
  py_isspace c = false -> exists z, drop_space (l ++ [c]) = (z ++ [c])%list.
Proof.
  intros Hc. induction l as [|x l IH]; cbn [List.app drop_space].
  - rewrite Hc. exists []. reflexivity.
  - destruct (py_isspace x); [exact IH|]. exists (x :: l). reflexivity.
Qed.

Lemma drop_space_trimmed y :
  drop_space (rev (drop_space (rev (drop_space y))))
  = rev (drop_space (rev (drop_space y))).
Proof.
  induction y as [|c y IH]; [reflexivity|]. cbn [drop_space].
  destruct (py_isspace c) eqn:Hc; [exact IH|].
  cbn [rev]. destruct (drop_space_last (rev y) c Hc) as [z ->].
  rewrite rev_app_distr. cbn [rev List.app drop_space]. rewrite Hc. reflexivity.
Qed.

Lemma strip_idem s : strip (strip s) = strip s.
Proof.
  unfold strip at 1 2. rewrite list_ascii_of_string_of_list_ascii.
  rewrite (drop_space_trimmed (list_ascii_of_string s)), rev_involutive, drop_space_idem.
  reflexivity.
Qed.

Definition stripped_item (it : item) : Prop :=
  strip (Book it) = Book it /\ strip (Author it) = Author it
  /\ strip (Genre it) = Genre it.

Definition keeps_stripped {A} (m : M A) : Prop :=
  forall s x s', Forall stripped_item (database s) -> m s = Some (x, s') ->
                 Forall stripped_item (database s').

Lemma set_field_stripped k v it :
  stripped_item it -> stripped_item (set_field k (strip v) it).
Proof.
  intros (Hb & Ha & Hg). unfold set_field.
  destruct (k =? "Book"); [split; [apply strip_idem | split; assumption]|].
  destruct (k =? "Author"); [split; [assumption | split; [apply strip_idem | assumption]]|].
  destruct (k =? "Genre"); [split; [assumption | split; [assumption | apply strip_idem]]|].
  split; [|split]; assumption.
Qed.

Section Stripped.
#[local] Opaque list_set remove_at strip.

Lemma add_item_keeps_stripped : keeps_stripped add_item.
Proof.
  intros [db ins o fs dt err] x s' Hinv H. unfold add_item in H.
  crush H; finish H; try exact Hinv.
  apply Forall_app. split; [exact Hinv|].
  constructor; [|constructor]. split; [|split]; apply strip_idem.
Qed.

Lemma view_all_keeps_stripped : keeps_stripped view_all.
Proof.
  intros [db ins o fs dt err] x s' Hinv H. unfold view_all in H.
  crush H; finish H; exact Hinv.
Qed.

Lemma search_items_keeps_stripped : keeps_stripped search_items.
Proof.
  intros [db ins o fs dt err] x s' Hinv H. unfold search_items in H.
  crush H; finish H; exact Hinv.
Qed.

Lemma search_by_genre_keeps_stripped : keeps_stripped search_by_genre.
Proof.
  intros [db ins o fs dt err] x s' Hinv H. unfold search_by_genre in H.
  crush H; finish H; exact Hinv.
Qed.

Lemma export_to_file_keeps_stripped : keeps_stripped export_to_file.
Proof.
  intros [db ins o fs dt err] x s' Hinv H. unfold export_to_file in H.
  crush H; finish H; exact Hinv.
Qed.

Lemma edit_item_keeps_stripped : keeps_stripped edit_item.
Proof.
  intros [db ins o fs dt err] x s' Hinv H. unfold edit_item in H.
  crush H; finish H; try exact Hinv.
  apply Forall_list_set; [exact Hinv|].
  match goal with
  | Hn : nth_error _ _ = Some (_, ?b), Hf : find_matches_by_title _ _ = _
    |- stripped_item (set_field ?k (strip ?v) ?b) =>
      rewrite <- Hf in Hn; apply selected_in_db, nth_error_In in Hn;
      apply set_field_stripped; exact (proj1 (Forall_forall _ _) Hinv b Hn)
  end.
Qed.

Lemma delete_item_keeps_stripped : keeps_stripped delete_item.
Proof.
  intros [db ins o fs dt err] x s' Hinv H. unfold delete_item in H.
  crush H; finish H; try exact Hinv.
  apply Forall_remove_at; exact Hinv.
Qed.

Lemma menu_step_keeps_stripped : keeps_stripped menu_step.
Proof.
  intros [db ins o fs dt err] x s' Hinv H. unfold menu_step in H.
  crush H; finish H; try exact Hinv.
  all: match goal with
       | E : add_item _ = Some _ |- _ => eapply add_item_keeps_stripped; [|exact E]
       | E : view_all _ = Some _ |- _ => eapply view_all_keeps_stripped; [|exact E]
       | E : search_items _ = Some _ |- _ => eapply search_items_keeps_stripped; [|exact E]
       | E : edit_item _ = Some _ |- _ => eapply edit_item_keeps_stripped; [|exact E]
       | E : delete_item _ = Some _ |- _ => eapply delete_item_keeps_stripped; [|exact E]
       | E : search_by_genre _ = Some _ |- _ =>
           eapply search_by_genre_keeps_stripped; [|exact E]
       | E : export_to_file _ = Some _ |- _ =>
           eapply export_to_file_keeps_stripped; [|exact E]
       end; exact Hinv.
Qed.

Lemma main_loop_keeps_stripped fuel : keeps_stripped (main_loop fuel).
Proof.
  induction fuel as [|fuel IH]; intros s x s' Hinv H.
  - injection H as _ <-. exact Hinv.
  - rewrite main_loop_S in H.
    destruct (menu_step s) as [[b s1]|] eqn:E; [|discriminate H].
    pose proof (menu_step_keeps_stripped _ _ _ Hinv E) as H1.
    destruct b; [exact (IH _ _ _ H1 H)|].
    injection H as _ <-. exact H1.
Qed.

End Stripped.

(** Every title, author and genre stored in the catalog is free of leading
    and trailing whitespace ([strip] leaves it as it is): [add_item] and
    [edit_item] store only stripped values, no handler breaks this, and so
    every catalog [main] reaches from the empty one has the property. *)
Theorem stored_fields_stripped :
  keeps_stripped add_item /\ keeps_stripped view_all /\ keeps_stripped search_items
  /\ keeps_stripped edit_item /\ keeps_stripped delete_item
  /\ keeps_stripped search_by_genre /\ keeps_stripped export_to_file
  /\ (forall fuel inputs dt err u s',
        main_loop fuel (init_state inputs dt err) = Some (u, s') ->
        Forall stripped_item (database s')).
Proof.
  split; [exact add_item_keeps_stripped|].
  split; [exact view_all_keeps_stripped|].
  split; [exact search_items_keeps_stripped|].
  split; [exact edit_item_keeps_stripped|].
  split; [exact delete_item_keeps_stripped|].
  split; [exact search_by_genre_keeps_stripped|].
  split; [exact export_to_file_keeps_stripped|].
  intros fuel inputs dt err u s' H.
  exact (main_loop_keeps_stripped fuel (init_state inputs dt err) u s' (Forall_nil _) H).
Qed.

(* ------------------------------------------------------------------ *)
(** ** The character functions, code point by code point

    These tables list, over all 256 code points, where [py_isspace],
    [int_isspace], [lower_char] and [upper_cp] differ from the identity; they
    are the values CPython 3 gives for [chr(n).isspace()], the whitespace
    [int()] skips, [chr(n).lower()] and [chr(n).upper()]. *)

Lemma py_isspace_table :
  filter (fun n => py_isspace (ascii_of_nat n)) (seq 0 256)
  = [9; 10; 11; 12; 13; 28; 29; 30; 31; 32; 133; 160].
Proof. vm_compute. reflexivity. Qed.

Lemma int_isspace_table :
  filter (fun n => int_isspace (ascii_of_nat n)) (seq 0 256)
  = [9; 10; 11; 12; 13; 32; 133; 160].
Proof. vm_compute. reflexivity. Qed.

Lemma lower_char_table :
  filter (fun p => negb (Nat.eqb (fst p) (snd p)))
    (map (fun n => (n, nat_of_ascii (lower_char (ascii_of_nat n)))) (seq 0 256))
  = [(65, 97); (66, 98); (67, 99); (68, 100); (69, 101); (70, 102); (71, 103);
     (72, 104); (73, 105); (74, 106); (75, 107); (76, 108); (77, 109); (78, 110);
     (79, 111); (80, 112); (81, 113); (82, 114); (83, 115); (84, 116); (85, 117);
     (86, 118); (87, 119); (88, 120); (89, 121); (90, 122); (192, 224); (193, 225);
     (194, 226); (195, 227); (196, 228); (197, 229); (198, 230); (199, 231); (200, 232);
     (201, 233); (202, 234); (203, 235); (204, 236); (205, 237); (206, 238); (207, 239);
     (208, 240); (209, 241); (210, 242); (211, 243); (212, 244); (213, 245); (214, 246);
     (216, 248); (217, 249); (218, 250); (219, 251); (220, 252); (221, 253); (222, 254)].
Proof. vm_compute. reflexivity. Qed.

Lemma upper_cp_table :
  filter (fun p => if list_eq_dec Nat.eq_dec (snd p) [fst p] then false else true)
    (map (fun n => (n, upper_cp (ascii_of_nat n))) (seq 0 256))
  = [(97, [65]); (98, [66]); (99, [67]); (100, [68]); (101, [69]);
     (102, [70]); (103, [71]); (104, [72]); (105, [73]); (106, [74]);
     (107, [75]); (108, [76]); (109, [77]); (110, [78]); (111, [79]);
     (112, [80]); (113, [81]); (114, [82]); (115, [83]); (116, [84]);
     (117, [85]); (118, [86]); (119, [87]); (120, [88]); (121, [89]);
     (122, [90]); (181, [924]); (223, [83; 83]); (224, [192]); (225, [193]);
     (226, [194]); (227, [195]); (228, [196]); (229, [197]); (230, [198]);
     (231, [199]); (232, [200]); (233, [201]); (234, [202]); (235, [203]);
     (236, [204]); (237, [205]); (238, [206]); (239, [207]); (240, [208]);
     (241, [209]); (242, [210]); (243, [211]); (244, [212]); (245, [213]);
     (246, [214]); (248, [216]); (249, [217]); (250, [218]); (251, [219]);
     (252, [220]); (253, [221]); (254, [222]); (255, [376])].
Proof. vm_compute. reflexivity. Qed.

(** [int("\xa01\x85")] is 1, but [int("\x1c1")] raises [ValueError] although
    [str.strip] would remove the \x1c; [" yes".strip().upper()] is ["YES"],
    and the sharp s upper-cases to two letters. *)
Lemma py_int_space_examples :
  py_int (String "160" (String "1" (String "133" EmptyString))) = Some 1%Z
  /\ py_int (String "028" (String "1" EmptyString)) = None
  /\ strip (String "028" (String "1" EmptyString)) = "1"
  /\ upper (strip " yes") = code_points "YES"
  /\ upper (String "223" EmptyString) = code_points "SS".
Proof. vm_compute. repeat split. Qed.
